(** * ContFramePool: a contiguous physical-frame allocator

    Shallow embedding of [cont_frame_pool.C] and the properties of its
    bitmap codec, frame pools and pool registry. *)

From Stdlib Require Import ZArith List Bool Lia.
From coqutil Require Import Z.bitblast.
Import ListNotations.

Local Open Scope Z_scope.

(** ** Machine integers

    The C integer types are modelled as [Z] with the wrap-around of each
    conversion written out. *)

(** Modelled from the spec: the width of [unsigned long], declared by the
    target and not in the source file; the spec gives the pool fields as
    unsigned 64-bit numbers. *)
Definition ULONG_BITS : Z := 64.

(** Conversion to [unsigned long]. *)
Definition to_ulong (z : Z) : Z := z mod 2 ^ ULONG_BITS.

(** Conversion to [unsigned int] (32 bits). *)
Definition to_uint (z : Z) : Z := z mod 2 ^ 32.

(** Conversion to [int] (32 bits, two's complement). *)
Definition to_int (z : Z) : Z := (z + 2 ^ 31) mod 2 ^ 32 - 2 ^ 31.

(** Conversion to [unsigned char]. *)
Definition to_uchar (z : Z) : Z := z mod 2 ^ 8.

(** Modelled from the spec: the constant [FRAME_SIZE], defined in the
    header [cont_frame_pool.H] which is not part of the sources; the spec
    gives 4096 bytes per frame. *)
Definition FRAME_SIZE : Z := 4096.

(** ** Physical memory

    The bitmap of a pool is a raw pointer into physical memory, so memory
    is one byte-addressed store shared by all pools. *)

Definition memory := Z -> Z.

Definition store (m : memory) (a v : Z) : memory :=
  fun x => if x =? a then v else m x.

(** ** Frame states *)

Inductive FrameState := Free | Used | HoS.

Definition FrameState_eqb (a b : FrameState) : bool :=
  match a, b with
  | Free, Free | Used, Used | HoS, HoS => true
  | _, _ => false
  end.

(** ** The bitmap codec *)

Section Codec.

(** [bitmap] is the address held by the pool's [bitmap] pointer. *)
Variable bitmap : Z.

(** The unsigned char [state] computed by [get_state] before the switch. *)
Definition slot_bits (m : memory) (_frame_no : Z) : Z :=
  let bitmap_index := to_uint (_frame_no / 4) in
  let shift := to_uint ((_frame_no mod 4) * 2) in
  let mask := to_uchar (Z.shiftl 3 shift) in
  to_uchar (Z.shiftr (Z.land (m (bitmap + bitmap_index)) mask) shift).

(** The switch of [get_state]. *)
Definition decode_state (state : Z) : FrameState :=
  match state with
  | 0 => Free
  | 1 => Used
  | 2 => HoS
  | _ => Free
  end.

Definition get_state (m : memory) (_frame_no : Z) : FrameState :=
  decode_state (slot_bits m _frame_no).

(** The constant that the switch of [set_state] shifts into place. *)
Definition encode_state (_state : FrameState) : Z :=
  match _state with
  | Free => 0
  | Used => 1
  | HoS => 2
  end.

Definition set_state (m : memory) (_frame_no : Z) (_state : FrameState)
  : memory :=
  let bitmap_index := to_uint (_frame_no / 4) in
  let shift := to_uint ((_frame_no mod 4) * 2) in
  let mask := to_uchar (Z.shiftl 3 shift) in
  let a := bitmap + bitmap_index in
  let m1 := store m a (to_uchar (Z.land (m a) (Z.lnot mask))) in
  store m1 a (to_uchar (Z.lor (m1 a) (Z.shiftl (encode_state _state) shift))).

End Codec.

(** ** Bytes

    [read_byte] is the expression of [get_state] on one byte and
    [write_byte] the two assignments of [set_state]; both depend on the low
    eight bits of the byte only, which leaves 256 cases to run. *)

Definition read_byte (b sh : Z) : Z :=
  to_uchar (Z.shiftr (Z.land b (to_uchar (Z.shiftl 3 sh))) sh).

Definition write_byte (b sh e : Z) : Z :=
  to_uchar (Z.lor (to_uchar (Z.land b (Z.lnot (to_uchar (Z.shiftl 3 sh)))))
                  (Z.shiftl e sh)).

Definition is_shift (sh : Z) : Prop := sh = 0 \/ sh = 2 \/ sh = 4 \/ sh = 6.

Definition bytes : list Z := map Z.of_nat (seq 0 256).

Definition shifts : list Z := [0; 2; 4; 6].

Definition codes : list Z := [0; 1; 2].

(** One run over all bytes, slots and codes: the written slot reads back
    the code, and every other slot of the byte reads as before. *)
Definition byte_law (r : Z) : bool :=
  forallb (fun sh =>
    forallb (fun e =>
      forallb (fun sh' =>
        read_byte (write_byte r sh e) sh' =?
          (if sh' =? sh then e else read_byte r sh')) shifts) codes) shifts.

(** One run over all bytes and slots: what [get_state] reads from a slot
    is the number made of the two bits of the byte at the slot's shift, the
    lower bit first. *)
Definition read_law (r : Z) : bool :=
  forallb (fun sh =>
    read_byte r sh =?
      Z.b2z (Z.testbit r sh) + 2 * Z.b2z (Z.testbit r (sh + 1))) shifts.

(** Frame numbers below [2 ^ 34] have byte indices below [2 ^ 32], so two
    of them share a slot only when they are equal. *)
Definition frame_range (i : Z) : Prop := 0 <= i < 2 ^ 34.

(** ** Frame pools *)

Record ContFramePool := mkPool {
  base_frame_no : Z;
  nframes : Z;
  nFreeFrames : Z;
  info_frame_no : Z;
  bitmap : Z
}.

Definition set_nFreeFrames (this : ContFramePool) (v : Z) : ContFramePool :=
  mkPool (base_frame_no this) (nframes this) v (info_frame_no this)
         (bitmap this).

(** The static members: [frame_pools] holds the pool objects its first
    [n_frame_pools] entries point to, in the order of their construction;
    a pool object is identified by its position. *)
Record World := mkWorld {
  mem : memory;
  frame_pools : list ContFramePool
}.

Definition n_frame_pools (w : World) : Z := Z.of_nat (length (frame_pools w)).

(** The declared length of the array [frame_pools]. *)
Definition frame_pools_capacity : Z := 100.

(** How a call ends: it returns, the assertion primitive halts the kernel,
    or it stores past the end of an array. *)
Inductive outcome (A : Type) :=
| Done (a : A)
| AssertFail
| OutOfBounds.

Arguments Done {A} a.
Arguments AssertFail {A}.
Arguments OutOfBounds {A}.

(** [for (int i = _; i < _; i++) set_state(i, s)], for the [count] values of
    [i] from [i] on; [set_state] receives [i] as an [unsigned long]. *)
Fixpoint set_states (bm : Z) (count : nat) (i : Z) (s : FrameState)
  (m : memory) : memory :=
  match count with
  | O => m
  | S k => set_states bm k (i + 1) s (set_state bm m (to_ulong i) s)
  end.

(** The constructor. The pool is appended at index [n_frame_pools] with no
    test against the length of the array. *)
Definition construct (_base_frame_no _n_frames _info_frame_no : Z)
  (w : World) : outcome World :=
  if negb (_n_frames <=? FRAME_SIZE * 4) then AssertFail else
  let bm :=
    if _info_frame_no =? 0 then to_ulong (_base_frame_no * FRAME_SIZE)
    else to_ulong (_info_frame_no * FRAME_SIZE) in
  let m1 := set_states bm (Z.to_nat _n_frames) 0 Free (mem w) in
  let m2 := if _info_frame_no =? 0 then set_state bm m1 0 Used else m1 in
  let nfree :=
    if _info_frame_no =? 0 then to_ulong (_n_frames - 1) else _n_frames in
  let this := mkPool _base_frame_no _n_frames nfree _info_frame_no bm in
  if n_frame_pools w <? frame_pools_capacity
  then Done (mkWorld m2 (frame_pools w ++ [this]))
  else OutOfBounds.

(** The loop of [get_frames], [fuel] iterations from [fno] on; the loop
    runs [fno] from 0 to [nframes - 1]. *)
Fixpoint get_frames_loop (fuel : nat) (this : ContFramePool) (m : memory)
  (_n_frames fno hos_candidate free_frames : Z)
  : Z * ContFramePool * memory :=
  match fuel with
  | O => (0, this, m)
  | S k =>
    if FrameState_eqb (get_state (bitmap this) m (to_ulong fno)) Free then
      let free_frames := free_frames + 1 in
      if to_uint free_frames =? _n_frames then
        let m1 := set_state (bitmap this) m (to_ulong hos_candidate) HoS in
        let m2 :=
          set_states (bitmap this)
            (Z.to_nat (to_uint (hos_candidate + _n_frames)
                       - to_uint (hos_candidate + 1)))
            (hos_candidate + 1) Used m1 in
        (to_ulong (base_frame_no this + hos_candidate),
         set_nFreeFrames this (to_ulong (nFreeFrames this - _n_frames)),
         m2)
      else get_frames_loop k this m _n_frames (fno + 1) hos_candidate
             free_frames
    else get_frames_loop k this m _n_frames (fno + 1) (fno + 1) 0
  end.

Definition get_frames (this : ContFramePool) (m : memory) (_n_frames : Z)
  : Z * ContFramePool * memory :=
  get_frames_loop (Z.to_nat (nframes this)) this m _n_frames 0 0 0.

(** [mark_inaccessible] writes the bitmap and nothing else. *)
Definition mark_inaccessible (this : ContFramePool) (m : memory)
  (_base_frame_no _n_frames : Z) : memory :=
  let m1 :=
    set_state (bitmap this) m
      (to_ulong (_base_frame_no - base_frame_no this)) HoS in
  let i := to_int (to_ulong (_base_frame_no - base_frame_no this + 1)) in
  let bound :=
    to_ulong (_base_frame_no - base_frame_no this + _n_frames) in
  set_states (bitmap this) (Z.to_nat (bound - to_ulong i)) i Used m1.

(** The test of the search loop in [release_frames]. *)
Definition owns (p : ContFramePool) (_first_frame_no : Z) : bool :=
  (base_frame_no p <=? _first_frame_no) &&
  (_first_frame_no <? to_ulong (base_frame_no p + nframes p)).

(** The search loop of [release_frames]: the first pool of the table that
    passes the test. *)
Fixpoint find_pool (pools : list ContFramePool) (_first_frame_no : Z)
  : option ContFramePool :=
  match pools with
  | [] => None
  | p :: rest =>
    if owns p _first_frame_no then Some p else find_pool rest _first_frame_no
  end.

(** The while loop of [release_frames]. *)
Fixpoint release_loop (fuel : nat) (pool : ContFramePool) (frame_ind : Z)
  (m : memory) : memory :=
  match fuel with
  | O => m
  | S k =>
    if (frame_ind <? nframes pool) &&
       FrameState_eqb (get_state (bitmap pool) m frame_ind) Used
    then release_loop k pool (to_ulong (frame_ind + 1))
           (set_state (bitmap pool) m frame_ind Free)
    else m
  end.

(** [release_frames] writes the bitmap of the pool found and nothing
    else. *)
Definition release_frames (_first_frame_no : Z) (w : World) : outcome World :=
  match find_pool (frame_pools w) _first_frame_no with
  | None => Done w
  | Some pool =>
    let frame_ind := to_ulong (_first_frame_no - base_frame_no pool) in
    if FrameState_eqb (get_state (bitmap pool) (mem w) frame_ind) HoS then
      let m1 := set_state (bitmap pool) (mem w) frame_ind Free in
      let frame_ind := to_ulong (frame_ind + 1) in
      Done (mkWorld
              (release_loop (Z.to_nat (nframes pool - frame_ind)) pool
                 frame_ind m1)
              (frame_pools w))
    else AssertFail
  end.

Definition needed_info_frames (_n_frames : Z) : Z :=
  to_ulong (_n_frames / (FRAME_SIZE * 4)
            + (if 0 <? _n_frames mod (FRAME_SIZE * 4) then 1 else 0)).

(** ** Calls on the pool objects of the table *)

Fixpoint replace_pool (k : nat) (p : ContFramePool)
  (pools : list ContFramePool) : list ContFramePool :=
  match pools, k with
  | [], _ => []
  | _ :: rest, O => p :: rest
  | q :: rest, S k' => q :: replace_pool k' p rest
  end.

(** [frame_pools[k]->get_frames(n)]; [None] when there is no such pool. *)
Definition call_get_frames (k : nat) (n : Z) (w : World)
  : option (Z * World) :=
  match nth_error (frame_pools w) k with
  | None => None
  | Some this =>
    let '(r, this', m') := get_frames this (mem w) n in
    Some (r, mkWorld m' (replace_pool k this' (frame_pools w)))
  end.

(** [frame_pools[k]->mark_inaccessible(b, n)]. *)
Definition call_mark_inaccessible (k : nat) (b n : Z) (w : World)
  : option World :=
  match nth_error (frame_pools w) k with
  | None => None
  | Some this =>
    Some (mkWorld (mark_inaccessible this (mem w) b n) (frame_pools w))
  end.

(** ** Observations of a pool *)

(** The state of the frame at index [i] of the pool. *)
Definition state_at (p : ContFramePool) (m : memory) (i : Z) : FrameState :=
  get_state (bitmap p) m i.

(** The indices [0 .. n - 1]. *)
Definition indices (n : Z) : list Z := map Z.of_nat (seq 0 (Z.to_nat n)).

(** The number of frames of the pool whose state is [Free]. *)
Definition count_free (p : ContFramePool) (m : memory) : Z :=
  Z.of_nat (length (filter (fun i => FrameState_eqb (state_at p m i) Free)
                           (indices (nframes p)))).

(** The states of all frames of the pool, in order. *)
Definition states (p : ContFramePool) (m : memory) : list FrameState :=
  map (state_at p m) (indices (nframes p)).

(** ** Well-formed pools and runs of frames *)

(** The fields hold [unsigned long] values, and [nframes] has passed the
    assertion of the constructor. *)
Definition pool_wf (p : ContFramePool) : Prop :=
  0 <= base_frame_no p < 2 ^ ULONG_BITS /\
  0 <= nframes p <= FRAME_SIZE * 4.

(** The frames at indices [c .. c + n - 1] lie in the pool and are all
    [Free]. *)
Definition free_run (p : ContFramePool) (m : memory) (c n : Z) : Prop :=
  0 <= c /\ c + n <= nframes p /\
  forall j, c <= j < c + n -> state_at p m j = Free.

(** [c] is the lowest start index of a run of [n] free frames. *)
Definition first_fit (p : ContFramePool) (m : memory) (n c : Z) : Prop :=
  free_run p m c n /\ forall c', free_run p m c' n -> c <= c'.

(** The frame at [c] is the head of a sequence of [n] frames in [m'], and
    every other frame of the pool is as in [m]. *)
Definition marked_run (p : ContFramePool) (m m' : memory) (c n : Z) : Prop :=
  state_at p m' c = HoS /\
  (forall j, c < j < c + n -> state_at p m' j = Used) /\
  (forall j, 0 <= j < nframes p -> ~ c <= j < c + n ->
     state_at p m' j = state_at p m j).

(** Two pool objects over the same frames and the same bitmap. *)
Definition same_region (p p' : ContFramePool) : Prop :=
  base_frame_no p' = base_frame_no p /\ nframes p' = nframes p /\
  bitmap p' = bitmap p.

(** What [get_frames] returns and leaves behind when it commits a run of
    [n] frames at index [c]. *)
Definition committed (this : ContFramePool) (m : memory) (n c : Z)
  : Z * ContFramePool * memory :=
  (to_ulong (base_frame_no this + c),
   set_nFreeFrames this (to_ulong (nFreeFrames this - n)),
   set_states (bitmap this) (Z.to_nat (n - 1)) (c + 1) Used
     (set_state (bitmap this) m c HoS)).

(** ** Scenarios *)

(** Memory before any pool exists: every slot holds the pattern 11. *)
Definition boot_memory : memory := fun _ => 255.

Definition boot : World := mkWorld boot_memory [].

(** [k] pools of four frames each, one after the other, their bitmaps in
    the frames below frame 1000. *)
Fixpoint construct_many (k : nat) (w : World) : outcome World :=
  match k with
  | O => Done w
  | S k' =>
    match construct_many k' w with
    | Done w' => construct (1000 + 4 * Z.of_nat k') 4 (1 + Z.of_nat k') w'
    | AssertFail => AssertFail
    | OutOfBounds => OutOfBounds
    end
  end.

(** The pool at position [k] of the table. *)
Definition pool_at (k : nat) (w : World) : ContFramePool :=
  nth k (frame_pools w) (mkPool 0 0 0 0 0).

(** What a scenario observes of a world: the states of the frames of the
    pool at position 0, its counter and its number of free frames; [None]
    when the scenario did not return. *)
Definition observe (o : outcome World)
  : option (list FrameState * Z * Z) :=
  match o with
  | Done w =>
    let p := pool_at 0 w in
    Some (states p (mem w), nFreeFrames p, count_free p (mem w))
  | _ => None
  end.

(** Sequencing of calls that may not return. *)
Definition and_then {A B : Type} (o : outcome A) (f : A -> outcome B)
  : outcome B :=
  match o with
  | Done a => f a
  | AssertFail => AssertFail
  | OutOfBounds => OutOfBounds
  end.

(** [frame_pools[k]->get_frames(n)] on a pool that exists, keeping the
    world and recording the frame returned. *)
Definition do_get_frames (k : nat) (n : Z) (w : World) : Z * World :=
  match call_get_frames k n w with
  | Some rw => rw
  | None => (0, w)
  end.

Definition do_mark_inaccessible (k : nat) (b n : Z) (w : World) : World :=
  match call_mark_inaccessible k b n w with
  | Some w' => w'
  | None => w
  end.

(** The world a call returned with, if it returned. *)
Definition returned {A : Type} (o : outcome A) : option A :=
  match o with
  | Done a => Some a
  | _ => None
  end.

(** Scenario 1 of the pool with an external bitmap: frames 100 .. 115,
    bitmap in frame 99. *)
Definition pool_100 : outcome World := construct 100 16 99 boot.

(** Scenario 4, the self-hosted pool: frames 200 .. 207. *)
Definition pool_200 : outcome World := construct 200 8 0 boot.

(** ** The bytes of a bitmap *)

(** The address [x] is one of the [ceil(nframes / 4)] bytes that hold the
    slots of the frames of the pool. *)
Definition in_bitmap (p : ContFramePool) (x : Z) : Prop :=
  bitmap p <= x < bitmap p + (nframes p + 3) / 4.

(** The number of the first [N] frames of the pool whose state is
    [Free]. *)
Definition count_free_upto (p : ContFramePool) (m : memory) (N : nat) : Z :=
  Z.of_nat (length (filter (fun i => FrameState_eqb (state_at p m i) Free)
                           (map Z.of_nat (seq 0 N)))).

(** How many of the indices [0 .. N - 1] lie in [c .. c + n - 1]. *)
Definition overlap (N c n : Z) : Z := Z.max 0 (Z.min N (c + n) - c).

(** ** More scenarios *)

(** A pool object for frames 100 .. 115 with its bitmap in frame 99. *)
Definition pool_16 : ContFramePool := mkPool 100 16 16 99 405504.

(** Memory with every byte 0: every slot reads [Free]. *)
Definition zero_memory : memory := fun _ => 0.

(** The table holds [pool_16] and all its frames are free. *)
Definition world_16 : World := mkWorld zero_memory [pool_16].

(** The world a call returned, and the world it started from when it did
    not return. *)
Definition world_after (o : outcome World) (w : World) : World :=
  match o with
  | Done w' => w'
  | _ => w
  end.

(** [world_16] after [get_frames(4)] on its pool: frames 100 .. 103 are a
    run. *)
Definition world_16_alloc : World := snd (do_get_frames 0 4 world_16).

(** * Properties *)

(** Side conditions on the ranges of frame numbers and machine integers. *)
Ltac range := cbv [frame_range ULONG_BITS FRAME_SIZE] in *; lia.

(** ** Machine integers *)

Lemma to_ulong_small z : 0 <= z < 2 ^ ULONG_BITS -> to_ulong z = z.
Proof. intro H. unfold to_ulong. now apply Z.mod_small. Qed.

Lemma to_ulong_range z : 0 <= to_ulong z < 2 ^ ULONG_BITS.
Proof. unfold to_ulong. apply Z.mod_pos_bound. reflexivity. Qed.

Lemma to_ulong_le z : 0 <= z -> to_ulong z <= z.
Proof. intro H. unfold to_ulong. apply Z.mod_le; [exact H | reflexivity]. Qed.

Lemma to_uint_small z : 0 <= z < 2 ^ 32 -> to_uint z = z.
Proof. intro H. unfold to_uint. now apply Z.mod_small. Qed.

Lemma to_int_small z : 0 <= z < 2 ^ 31 -> to_int z = z.
Proof. intro H. unfold to_int. rewrite Z.mod_small; lia. Qed.

Lemma frame_range_ulong i : frame_range i -> to_ulong i = i.
Proof.
  intro H. apply to_ulong_small. range.
Qed.

(** ** The bytes of the bitmap *)

Lemma store_same (m : memory) a v : store m a v a = v.
Proof. unfold store. now rewrite Z.eqb_refl. Qed.

Lemma store_other (m : memory) a v x : x <> a -> store m a v x = m x.
Proof. unfold store. intro H. destruct (Z.eqb_spec x a); congruence. Qed.

Lemma frame_shift_cases i :
  to_uint ((i mod 4) * 2) = 0 \/ to_uint ((i mod 4) * 2) = 2 \/
  to_uint ((i mod 4) * 2) = 4 \/ to_uint ((i mod 4) * 2) = 6.
Proof.
  unfold to_uint.
  assert (H : 0 <= i mod 4 < 4) by (apply Z.mod_pos_bound; lia).
  rewrite Z.mod_small by lia. lia.
Qed.

Lemma land_low_byte b c : 0 <= c < 2 ^ 8 -> Z.land b c = Z.land (b mod 2 ^ 8) c.
Proof.
  intro Hc.
  rewrite <- (Z.mod_small c (2 ^ 8)) by exact Hc.
  Z.bitblast.
Qed.

Lemma land_lnot_low_byte b c :
  (Z.land b (Z.lnot c)) mod 2 ^ 8 = (Z.land (b mod 2 ^ 8) (Z.lnot c)) mod 2 ^ 8.
Proof. Z.bitblast. Qed.

Lemma mask_range sh : is_shift sh -> 0 <= to_uchar (Z.shiftl 3 sh) < 2 ^ 8.
Proof. intros _. unfold to_uchar. apply Z.mod_pos_bound. lia. Qed.

Lemma read_byte_low b sh : is_shift sh -> read_byte b sh = read_byte (b mod 2 ^ 8) sh.
Proof.
  intro H. unfold read_byte.
  rewrite (land_low_byte b) by (apply mask_range; exact H). reflexivity.
Qed.

Lemma write_byte_low b sh e : write_byte b sh e = write_byte (b mod 2 ^ 8) sh e.
Proof.
  unfold write_byte, to_uchar at 2 4.
  rewrite land_lnot_low_byte. reflexivity.
Qed.

Lemma bytes_forall (P : Z -> bool) :
  forallb P bytes = true -> forall r, 0 <= r < 2 ^ 8 -> P r = true.
Proof.
  intros H r Hr. rewrite forallb_forall in H. apply H.
  unfold bytes. rewrite <- (Z2Nat.id r) by lia.
  apply in_map, in_seq. change (2 ^ 8) with 256 in Hr. lia.
Qed.

Lemma byte_law_all : forallb byte_law bytes = true.
Proof. vm_compute. reflexivity. Qed.

Lemma is_shift_In sh : is_shift sh -> In sh shifts.
Proof. unfold is_shift, shifts. simpl. intuition. Qed.

Lemma encode_In s : In (encode_state s) codes.
Proof. destruct s; simpl; auto. Qed.

Lemma read_write_byte b sh sh' s :
  is_shift sh -> is_shift sh' ->
  read_byte (write_byte b sh (encode_state s)) sh' =
    if sh' =? sh then encode_state s else read_byte b sh'.
Proof.
  intros Hsh Hsh'.
  rewrite write_byte_low, (read_byte_low b) by assumption.
  assert (Hr : 0 <= b mod 2 ^ 8 < 2 ^ 8) by (apply Z.mod_pos_bound; lia).
  pose proof (bytes_forall byte_law byte_law_all _ Hr) as H.
  unfold byte_law in H. rewrite forallb_forall in H.
  specialize (H sh (is_shift_In _ Hsh)). rewrite forallb_forall in H.
  specialize (H _ (encode_In s)). rewrite forallb_forall in H.
  specialize (H sh' (is_shift_In _ Hsh')).
  now apply Z.eqb_eq in H.
Qed.

(** ** The slots of the bitmap *)

Lemma is_shift_frame i : is_shift (to_uint ((i mod 4) * 2)).
Proof. exact (frame_shift_cases i). Qed.

Lemma slot_bits_read bm m i :
  slot_bits bm m i =
    read_byte (m (bm + to_uint (i / 4))) (to_uint ((i mod 4) * 2)).
Proof. reflexivity. Qed.

Lemma set_state_at bm m i s :
  set_state bm m i s (bm + to_uint (i / 4)) =
    write_byte (m (bm + to_uint (i / 4))) (to_uint ((i mod 4) * 2))
               (encode_state s).
Proof. unfold set_state. cbv zeta. now rewrite !store_same. Qed.

Lemma set_state_elsewhere bm m i s x :
  x <> bm + to_uint (i / 4) -> set_state bm m i s x = m x.
Proof. intro H. unfold set_state. cbv zeta. now rewrite !store_other. Qed.

(** The raw slot of frame [j] after [set_state] on frame [i]. *)
Lemma slot_bits_set_state bm m i s j :
  slot_bits bm (set_state bm m i s) j =
    if (to_uint (j / 4) =? to_uint (i / 4)) &&
       (to_uint ((j mod 4) * 2) =? to_uint ((i mod 4) * 2))
    then encode_state s else slot_bits bm m j.
Proof.
  rewrite !slot_bits_read.
  destruct (Z.eqb_spec (to_uint (j / 4)) (to_uint (i / 4))) as [E | E].
  - rewrite E, set_state_at, read_write_byte by apply is_shift_frame.
    reflexivity.
  - rewrite set_state_elsewhere by lia. reflexivity.
Qed.

Lemma decode_encode s : decode_state (encode_state s) = s.
Proof. now destruct s. Qed.

Lemma get_state_set_same bm m i s : get_state bm (set_state bm m i s) i = s.
Proof.
  unfold get_state. rewrite slot_bits_set_state, !Z.eqb_refl. simpl.
  apply decode_encode.
Qed.

Lemma slot_inj i j :
  frame_range i -> frame_range j ->
  to_uint (j / 4) = to_uint (i / 4) ->
  to_uint ((j mod 4) * 2) = to_uint ((i mod 4) * 2) -> j = i.
Proof.
  unfold frame_range, to_uint. intros Hi Hj.
  change (2 ^ 34) with (4 * 2 ^ 32) in *.
  pose proof (Z.mod_pos_bound i 4 ltac:(lia)).
  pose proof (Z.mod_pos_bound j 4 ltac:(lia)).
  rewrite !(Z.mod_small (_ / 4)), !(Z.mod_small (_ * 2)) by
    (try (split; [apply Z.div_pos | apply Z.div_lt_upper_bound]); lia).
  intros. rewrite (Z.div_mod i 4), (Z.div_mod j 4) by lia. lia.
Qed.

Lemma slot_bits_set_other bm m i s j :
  frame_range i -> frame_range j -> j <> i ->
  slot_bits bm (set_state bm m i s) j = slot_bits bm m j.
Proof.
  intros Hi Hj Hne. rewrite slot_bits_set_state.
  destruct (Z.eqb_spec (to_uint (j / 4)) (to_uint (i / 4))); simpl; auto.
  destruct (Z.eqb_spec (to_uint (j mod 4 * 2)) (to_uint (i mod 4 * 2))); auto.
  exfalso. apply Hne. now apply slot_inj.
Qed.

Lemma get_state_set_other bm m i s j :
  frame_range i -> frame_range j -> j <> i ->
  get_state bm (set_state bm m i s) j = get_state bm m j.
Proof. intros. unfold get_state. now rewrite slot_bits_set_other. Qed.

Lemma FrameState_eqb_eq a b : FrameState_eqb a b = true <-> a = b.
Proof. destruct a, b; simpl; split; congruence. Qed.

Lemma FrameState_eqb_neq a b : FrameState_eqb a b = false <-> a <> b.
Proof. destruct a, b; simpl; split; congruence. Qed.

Lemma encode_state_range s : 0 <= encode_state s <= 2.
Proof. destruct s; simpl; lia. Qed.

Lemma read_law_all : forallb read_law bytes = true.
Proof. vm_compute. reflexivity. Qed.

(** The slot read from a byte is its two bits at the shift. *)
Lemma read_byte_bits b sh :
  is_shift sh ->
  read_byte b sh = Z.b2z (Z.testbit b sh) + 2 * Z.b2z (Z.testbit b (sh + 1)).
Proof.
  intro Hsh. rewrite read_byte_low by exact Hsh.
  assert (Hr : 0 <= b mod 2 ^ 8 < 2 ^ 8) by (apply Z.mod_pos_bound; lia).
  pose proof (bytes_forall read_law read_law_all _ Hr) as H.
  unfold read_law in H. rewrite forallb_forall in H.
  specialize (H sh (is_shift_In _ Hsh)). apply Z.eqb_eq in H.
  rewrite H, !Z.mod_pow2_bits_low by (unfold is_shift in Hsh; lia).
  reflexivity.
Qed.

(** The slot of a frame is the two bits at [2 * (_frame_no mod 4)] of the
    byte at [_frame_no / 4] of the bitmap; it is one of 0, 1, 2, 3. *)
Lemma slot_bits_bits bm m j :
  slot_bits bm m j =
    Z.b2z (Z.testbit (m (bm + to_uint (j / 4))) (2 * (j mod 4))) +
    2 * Z.b2z (Z.testbit (m (bm + to_uint (j / 4))) (2 * (j mod 4) + 1)).
Proof.
  rewrite slot_bits_read, read_byte_bits by apply is_shift_frame.
  assert (E : to_uint (j mod 4 * 2) = 2 * (j mod 4)).
  { pose proof (Z.mod_pos_bound j 4 ltac:(lia)).
    rewrite to_uint_small; lia. }
  rewrite E. reflexivity.
Qed.

Lemma slot_bits_range bm m j : 0 <= slot_bits bm m j <= 3.
Proof.
  rewrite slot_bits_bits.
  destruct (Z.testbit _ (2 * (j mod 4))), (Z.testbit _ (2 * (j mod 4) + 1));
    simpl; lia.
Qed.

(** C9: the codec follows the encoding Free = 00, Used = 01, HoS = 10.
    The encoder: after [set_state] on frame [i] with state [s], the slot of
    [i] holds the code of [s] (0, 1 or 2, never 11), and every slot [j]
    holds either that code or what it held before, so [set_state] writes 11
    nowhere. The decoder: the slot of a frame is the two bits of its byte at
    the frame's shift, and [get_state] returns [Used] exactly for the
    pattern 01, [HoS] exactly for 10, and [Free] exactly for 00 and 11;
    what [set_state] wrote, [get_state] reads back. *)
Theorem codec_never_writes_11 bm m i s j :
  encode_state Free = 0 /\ encode_state Used = 1 /\ encode_state HoS = 2 /\
  slot_bits bm (set_state bm m i s) i = encode_state s /\
  encode_state s <> 3 /\
  (slot_bits bm (set_state bm m i s) j = encode_state s \/
   slot_bits bm (set_state bm m i s) j = slot_bits bm m j) /\
  get_state bm m j = decode_state (slot_bits bm m j) /\
  decode_state 3 = Free /\
  slot_bits bm m j =
    Z.b2z (Z.testbit (m (bm + to_uint (j / 4))) (2 * (j mod 4))) +
    2 * Z.b2z (Z.testbit (m (bm + to_uint (j / 4))) (2 * (j mod 4) + 1)) /\
  (get_state bm m j = Free <-> slot_bits bm m j = 0 \/ slot_bits bm m j = 3) /\
  (get_state bm m j = Used <-> slot_bits bm m j = 1) /\
  (get_state bm m j = HoS <-> slot_bits bm m j = 2) /\
  get_state bm (set_state bm m i s) i = s.
Proof.
  assert (Hdec :
    (get_state bm m j = Free <-> slot_bits bm m j = 0 \/ slot_bits bm m j = 3)
    /\ (get_state bm m j = Used <-> slot_bits bm m j = 1)
    /\ (get_state bm m j = HoS <-> slot_bits bm m j = 2)).
  { unfold get_state. pose proof (slot_bits_range bm m j) as Hr.
    assert (E : slot_bits bm m j = 0 \/ slot_bits bm m j = 1 \/
                slot_bits bm m j = 2 \/ slot_bits bm m j = 3) by lia.
    destruct E as [E | [E | [E | E]]]; rewrite E; simpl;
      repeat split; intros; try discriminate; try reflexivity; lia. }
  destruct Hdec as (HF & HU & HH).
  split; [reflexivity |]. split; [reflexivity |]. split; [reflexivity |].
  split; [rewrite slot_bits_set_state, !Z.eqb_refl; reflexivity |].
  split; [pose proof (encode_state_range s); lia |].
  split.
  { rewrite slot_bits_set_state.
    destruct (_ && _); [left | right]; reflexivity. }
  split; [reflexivity |]. split; [reflexivity |].
  split; [apply slot_bits_bits |].
  split; [exact HF |]. split; [exact HU |]. split; [exact HH |].
  apply get_state_set_same.
Qed.

(** ** Marking a run of frames *)

(** The loop that writes [count] slots from [i] on sets exactly those. *)
Lemma get_state_set_states bm s count :
  forall i m j,
    0 <= i -> i + Z.of_nat count <= 2 ^ 34 -> frame_range j ->
    get_state bm (set_states bm count i s m) j =
      if (i <=? j) && (j <? i + Z.of_nat count) then s else get_state bm m j.
Proof.
  induction count as [| k IH]; intros i m j Hi Hc Hj.
  - simpl. destruct (Z.leb_spec i j), (Z.ltb_spec j (i + 0)); simpl; auto; lia.
  - cbn [set_states]. rewrite IH by (auto; lia).
    assert (Ri : frame_range i) by range.
    rewrite frame_range_ulong by exact Ri.
    destruct (Z.eq_dec j i) as [-> | Hne].
    + rewrite get_state_set_same.
      destruct (Z.leb_spec (i + 1) i), (Z.leb_spec i i),
        (Z.ltb_spec i (i + Z.of_nat (S k))); simpl; auto; lia.
    + rewrite get_state_set_other by auto.
      destruct (Z.leb_spec (i + 1) j), (Z.leb_spec i j),
        (Z.ltb_spec j (i + 1 + Z.of_nat k)),
        (Z.ltb_spec j (i + Z.of_nat (S k))); simpl; auto; lia.
Qed.

(** The commit step of [get_frames], also the body of
    [mark_inaccessible]: a head at [c] and [n - 1] used frames after it. *)
Lemma mark_run_spec p m c n :
  0 <= c -> 1 <= n -> c + n <= 2 ^ 34 -> nframes p <= 2 ^ 34 ->
  marked_run p m
    (set_states (bitmap p) (Z.to_nat (n - 1)) (c + 1) Used
       (set_state (bitmap p) m c HoS)) c n.
Proof.
  intros Hc Hn Hcn Hp.
  assert (Rc : frame_range c) by range.
  unfold marked_run, state_at. repeat split.
  - rewrite get_state_set_states; try range.
    destruct (Z.leb_spec (c + 1) c); [lia |]. simpl.
    apply get_state_set_same.
  - intros j Hj. rewrite get_state_set_states; try range.
    rewrite Z2Nat.id by lia.
    destruct (Z.leb_spec (c + 1) j), (Z.ltb_spec j (c + 1 + (n - 1)));
      simpl; auto; lia.
  - intros j Hj Hout.
    rewrite get_state_set_states; try range.
    rewrite Z2Nat.id by lia.
    destruct (Z.leb_spec (c + 1) j), (Z.ltb_spec j (c + 1 + (n - 1)));
      simpl; try lia;
      apply get_state_set_other; auto; range.
Qed.

(** ** Construction *)

(** C3: the constructor of a self-hosted pool writes [Used], not [HoS],
    into the slot of frame 0. For the pool of frames 200 .. 207 the states
    after construction are [Used] followed by seven [Free] (the counter is
    7, as claimed), and the state of frame index 0 is not [HoS]. *)
Theorem self_hosted_first_frame_is_Used :
  observe pool_200 =
    Some ([Used; Free; Free; Free; Free; Free; Free; Free], 7, 7) /\
  option_map (fun w => state_at (pool_at 0 w) (mem w) 0) (returned pool_200)
    <> Some HoS.
Proof.
  split.
  - vm_compute. reflexivity.
  - vm_compute. discriminate.
Qed.

(** The same for every self-hosted pool ([_info_frame_no] 0) of [n >= 1]
    frames in a table that is not full: the construction returns with the
    pool appended, the state of frame index 0 is [Used], the frames at all
    other indices are [Free], and the counter is [n - 1]. *)
Lemma construct_self_hosted base n w :
  1 <= n <= FRAME_SIZE * 4 -> n_frame_pools w < frame_pools_capacity ->
  exists m',
    let this := mkPool base n (n - 1) 0 (to_ulong (base * FRAME_SIZE)) in
    construct base n 0 w = Done (mkWorld m' (frame_pools w ++ [this])) /\
    state_at this m' 0 = Used /\
    (forall j, 1 <= j < n -> state_at this m' j = Free) /\
    nFreeFrames this = n - 1.
Proof.
  intros Hn Hroom. unfold FRAME_SIZE in Hn. eexists. cbv zeta.
  split; [| split; [| split]].
  - unfold construct.
    destruct (Z.leb_spec n (FRAME_SIZE * 4)); [| unfold FRAME_SIZE in *; lia].
    destruct (Z.ltb_spec (n_frame_pools w) frame_pools_capacity); [| lia].
    cbn [negb Z.eqb]. cbv zeta.
    rewrite (to_ulong_small (n - 1)) by range.
    reflexivity.
  - unfold state_at. cbn [bitmap]. apply get_state_set_same.
  - intros j Hj. unfold state_at. cbn [bitmap].
    rewrite get_state_set_other by range.
    rewrite get_state_set_states by range.
    rewrite Z2Nat.id by lia.
    destruct (Z.leb_spec 0 j), (Z.ltb_spec j (0 + n)); simpl; auto; lia.
  - reflexivity.
Qed.

Lemma construct_self_hosted_witness :
  exists m',
    let this := mkPool 200 8 (8 - 1) 0 (to_ulong (200 * FRAME_SIZE)) in
    construct 200 8 0 boot = Done (mkWorld m' (frame_pools boot ++ [this])) /\
    state_at this m' 0 = Used /\
    (forall j, 1 <= j < 8 -> state_at this m' j = Free) /\
    nFreeFrames this = 8 - 1.
Proof.
  apply (construct_self_hosted 200 8 boot).
  - unfold FRAME_SIZE. lia.
  - vm_compute. reflexivity.
Defined.

(** A pool that the constructor has built from [unsigned long] arguments
    is well formed, next to the pools that were. *)
Lemma construct_wf b n i w w' :
  0 <= b < 2 ^ ULONG_BITS -> 0 <= n ->
  Forall pool_wf (frame_pools w) ->
  construct b n i w = Done w' -> Forall pool_wf (frame_pools w').
Proof.
  intros Hb Hn Hwf. unfold construct.
  destruct (Z.leb_spec n (FRAME_SIZE * 4)); [| discriminate].
  cbn [negb]. cbv zeta.
  destruct (n_frame_pools w <? frame_pools_capacity); [| discriminate].
  intro Hd. inversion Hd. cbn [frame_pools].
  apply Forall_app. split; [exact Hwf |].
  constructor; [| constructor].
  unfold pool_wf, ULONG_BITS in *. cbn [base_frame_no nframes]. lia.
Qed.

(** ** First-fit allocation *)

Section FirstFit.

Variables (this : ContFramePool) (m : memory) (n : Z).
Hypothesis Hwf : pool_wf this.
Hypothesis Hn : 1 <= n.

(** The scan, with its invariant: the frames from [hos] up to [fno] are
    free, there are [free] of them, fewer than requested, and every
    window of [n] frames that starts below [hos] holds a frame that is
    not free. *)
Lemma get_frames_loop_spec fuel :
  forall fno hos free,
    fno + Z.of_nat fuel = nframes this ->
    0 <= hos <= fno -> free = fno - hos -> free < n ->
    (forall j, hos <= j < fno -> state_at this m j = Free) ->
    (forall c, 0 <= c < hos ->
       exists j, c <= j < c + n /\ j < hos /\ state_at this m j <> Free) ->
    (exists c, first_fit this m n c /\
       get_frames_loop fuel this m n fno hos free = committed this m n c) \/
    ((forall c, ~ free_run this m c n) /\
       get_frames_loop fuel this m n fno hos free = (0, this, m)).
Proof.
  destruct Hwf as [Hbase Hnf]. unfold FRAME_SIZE in Hnf.
  induction fuel as [| k IH]; intros fno hos free Hfuel Hhos Hfree Hlt
    Hrun Hlow.
  - right. split; [| reflexivity].
    intros c (Hc0 & Hcn & Hall).
    destruct (Z.lt_ge_cases c hos) as [Hc | Hc].
    + destruct (Hlow c ltac:(lia)) as (j & Hj & _ & Hnot).
      apply Hnot, Hall, Hj.
    + simpl in Hfuel. lia.
  - cbn [get_frames_loop].
    assert (Hfno : to_ulong fno = fno)
      by (apply to_ulong_small; range).
    rewrite Hfno.
    destruct (FrameState_eqb _ Free) eqn:E.
    + apply FrameState_eqb_eq in E. cbv zeta.
      rewrite (to_uint_small (free + 1)) by lia.
      destruct (Z.eqb_spec (free + 1) n) as [Heq | Hneq].
      * left. exists hos. split.
        -- split.
           ++ repeat split; try lia.
              intros j Hj. destruct (Z.eq_dec j fno) as [-> | Hne].
              ** exact E.
              ** apply Hrun. lia.
           ++ intros c' Hc'. destruct (Z.lt_ge_cases c' hos) as [Hc | Hc];
                [| lia].
              destruct Hc' as (Hc0 & _ & Hall).
              destruct (Hlow c' ltac:(lia)) as (j & Hj & _ & Hnot).
              exfalso. apply Hnot, Hall, Hj.
        -- unfold committed.
           rewrite (to_ulong_small hos) by range.
           rewrite !to_uint_small by lia.
           replace (hos + n - (hos + 1)) with (n - 1) by lia.
           reflexivity.
      * apply IH; try lia; [| exact Hlow].
        intros j Hj. destruct (Z.eq_dec j fno) as [-> | Hne].
        -- exact E.
        -- apply Hrun. lia.
    + apply FrameState_eqb_neq in E.
      apply IH; try lia.
      intros c Hc. destruct (Z.lt_ge_cases c hos) as [Hlo | Hhi].
      * destruct (Hlow c ltac:(lia)) as (j & Hj & Hjh & Hnot).
        exists j. repeat split; auto; lia.
      * exists fno. repeat split; auto; lia.
Qed.

(** The two ways [get_frames] ends: it commits at the lowest start of a
    free run, or there is no free run and nothing is written. *)
Lemma get_frames_cases :
  (exists c, first_fit this m n c /\
     get_frames this m n = committed this m n c) \/
  ((forall c, ~ free_run this m c n) /\ get_frames this m n = (0, this, m)).
Proof.
  pose proof Hwf as [_ Hnf]. unfold FRAME_SIZE in Hnf.
  unfold get_frames. apply get_frames_loop_spec; try lia;
    intros j Hj; lia.
Qed.

(** C5: [get_frames(n)] is first-fit. When some run of [n] free frames
    exists, the call returns [base_frame_no + c] for the lowest start
    index [c] of such a run, the frame at [c] becomes [HoS], the frames at
    [c + 1 .. c + n - 1] become [Used], the other frames keep their state,
    and the counter is decremented by [n]; when no such run exists, it
    returns 0 and leaves the pool object and memory as they were. *)
Theorem get_frames_first_fit :
  ((exists c0, free_run this m c0 n) ->
   exists c m',
     first_fit this m n c /\
     get_frames this m n =
       (to_ulong (base_frame_no this + c),
        set_nFreeFrames this (to_ulong (nFreeFrames this - n)), m') /\
     marked_run this m m' c n) /\
  ((forall c, ~ free_run this m c n) ->
   get_frames this m n = (0, this, m)).
Proof.
  pose proof Hwf as [Hbase Hnf]. unfold FRAME_SIZE in Hnf.
  pose proof get_frames_cases as Hspec.
  split.
  - intros [c0 Hc0]. destruct Hspec as [(c & Hc & Heq) | [Hno _]].
    + exists c. eexists. split; [exact Hc |]. split; [exact Heq |].
      destruct Hc as [(Hc1 & Hc2 & _) _].
      apply mark_run_spec; lia.
    + exfalso. exact (Hno c0 Hc0).
  - intros Hno. destruct Hspec as [(c & [Hc _] & _) | [_ Heq]].
    + exfalso. exact (Hno c Hc).
    + exact Heq.
Qed.

End FirstFit.

Lemma get_frames_first_fit_witness :
  ((exists c0, free_run (mkPool 100 16 16 99 405504) (fun _ => 0) c0 4) ->
   exists c m',
     first_fit (mkPool 100 16 16 99 405504) (fun _ => 0) 4 c /\
     get_frames (mkPool 100 16 16 99 405504) (fun _ => 0) 4 =
       (to_ulong (100 + c), mkPool 100 16 (to_ulong (16 - 4)) 99 405504, m') /\
     marked_run (mkPool 100 16 16 99 405504) (fun _ => 0) m' c 4) /\
  ((forall c, ~ free_run (mkPool 100 16 16 99 405504) (fun _ => 0) c 4) ->
   get_frames (mkPool 100 16 16 99 405504) (fun _ => 0) 4 =
     (0, mkPool 100 16 16 99 405504, fun _ => 0)).
Proof.
  apply (get_frames_first_fit (mkPool 100 16 16 99 405504) (fun _ => 0) 4).
  - unfold pool_wf, FRAME_SIZE, ULONG_BITS. simpl. lia.
  - lia.
Defined.

(** ** A request for zero frames *)

(** The counter is compared with the request after its increment, so it
    is at least 1 there and never equal to a request of 0. *)
Lemma get_frames_loop_zero this m fuel :
  forall fno hos free,
    0 <= free -> free + Z.of_nat fuel < 2 ^ 32 ->
    get_frames_loop fuel this m 0 fno hos free = (0, this, m).
Proof.
  induction fuel as [| k IH]; intros fno hos free H0 Hb.
  - reflexivity.
  - cbn [get_frames_loop].
    destruct (FrameState_eqb _ Free).
    + cbv zeta. rewrite to_uint_small by lia.
      destruct (Z.eqb_spec (free + 1) 0); [lia |].
      apply IH; lia.
    + apply IH; lia.
Qed.

(** C10: [get_frames(0)] returns the sentinel 0 and leaves the pool object
    (with its counter) and memory (with the bitmap) as they were. *)
Theorem get_frames_zero_returns_sentinel this m :
  pool_wf this -> get_frames this m 0 = (0, this, m).
Proof.
  intros [_ Hn]. unfold get_frames.
  apply get_frames_loop_zero; [lia |].
  unfold FRAME_SIZE in Hn. rewrite Z2Nat.id by lia. lia.
Qed.

Lemma get_frames_zero_returns_sentinel_witness :
  get_frames (mkPool 100 16 16 99 405504) boot_memory 0 =
  (0, mkPool 100 16 16 99 405504, boot_memory).
Proof.
  apply get_frames_zero_returns_sentinel.
  unfold pool_wf, FRAME_SIZE, ULONG_BITS. simpl. lia.
Defined.

(** ** Pools stay well formed *)

Lemma get_frames_loop_wf this m n fuel :
  pool_wf this ->
  forall fno hos free,
    pool_wf (snd (fst (get_frames_loop fuel this m n fno hos free))).
Proof.
  intro Hwf. induction fuel as [| k IH]; intros fno hos free.
  - exact Hwf.
  - cbn [get_frames_loop].
    destruct (FrameState_eqb _ Free); [| apply IH].
    cbv zeta. destruct (_ =? _); [exact Hwf | apply IH].
Qed.

Lemma replace_pool_wf this' :
  pool_wf this' ->
  forall pools k, Forall pool_wf pools ->
    Forall pool_wf (replace_pool k this' pools).
Proof.
  intros Hnew. induction pools as [| q rest IH]; intros k Hwf.
  - destruct k; constructor.
  - inversion Hwf; subst. destruct k; simpl; constructor; auto.
Qed.

Lemma call_get_frames_wf k n w r w' :
  Forall pool_wf (frame_pools w) ->
  call_get_frames k n w = Some (r, w') -> Forall pool_wf (frame_pools w').
Proof.
  intros Hwf. unfold call_get_frames.
  destruct (nth_error (frame_pools w) k) as [this |] eqn:Ek; [| discriminate].
  assert (Hthis : pool_wf this).
  { rewrite Forall_forall in Hwf. eapply Hwf, nth_error_In, Ek. }
  pose proof (get_frames_loop_wf this (mem w) n (Z.to_nat (nframes this))
                Hthis 0 0 0) as Hg.
  unfold get_frames.
  destruct (get_frames_loop _ this (mem w) n 0 0 0) as [[r0 this'] m'].
  intro Hs. inversion Hs. cbn [frame_pools].
  apply replace_pool_wf; [exact Hg | exact Hwf].
Qed.

(** ** Forced marking *)

(** On a range of at least one frame inside the pool, [mark_inaccessible]
    marks the run as the commit step of [get_frames] does. Its result is a
    memory: the pool object, and so the counter, is not written. *)
Lemma mark_inaccessible_marks_run this m b n :
  pool_wf this -> 1 <= n ->
  base_frame_no this <= b -> b + n <= base_frame_no this + nframes this ->
  marked_run this m (mark_inaccessible this m b n) (b - base_frame_no this) n.
Proof.
  intros [Hb Hnf] Hn Hlo Hhi. unfold FRAME_SIZE in Hnf.
  unfold mark_inaccessible. cbv zeta.
  set (c := b - base_frame_no this).
  assert (Hc : 0 <= c /\ c + n <= nframes this) by (unfold c; lia).
  rewrite (to_ulong_small c), (to_ulong_small (c + 1)),
    (to_ulong_small (c + n)) by range.
  rewrite to_int_small by lia.
  rewrite (to_ulong_small (c + 1)) by range.
  replace (c + n - (c + 1)) with (n - 1) by lia.
  apply mark_run_spec; lia.
Qed.

Lemma call_mark_inaccessible_keeps_pools k b n w w' :
  call_mark_inaccessible k b n w = Some w' -> frame_pools w' = frame_pools w.
Proof.
  unfold call_mark_inaccessible.
  destruct (nth_error _ k); intro H; inversion H. reflexivity.
Qed.

(** C4: [mark_inaccessible] writes the head and the used frames and does
    not touch the counter. On the fresh pool of frames 100 .. 115,
    [mark_inaccessible(110, 3)] leaves the counter at 16 while 13 frames
    are free. *)
Theorem mark_inaccessible_keeps_counter :
  observe pool_100 =
    Some ([Free; Free; Free; Free; Free; Free; Free; Free;
           Free; Free; Free; Free; Free; Free; Free; Free], 16, 16) /\
  observe (and_then pool_100
             (fun w => Done (do_mark_inaccessible 0 110 3 w))) =
    Some ([Free; Free; Free; Free; Free; Free; Free; Free;
           Free; Free; HoS; Used; Used; Free; Free; Free], 16, 13).
Proof. split; vm_compute; reflexivity. Qed.

(** ** Routing a release through the table *)

(** The test of the search loop accepts only frames of the pool. *)
Lemma owns_range p first :
  pool_wf p -> owns p first = true ->
  base_frame_no p <= first < base_frame_no p + nframes p /\
  to_ulong (first - base_frame_no p) = first - base_frame_no p.
Proof.
  intros [Hb Hn] H. unfold owns in H.
  apply andb_prop in H. destruct H as [H1 H2].
  apply Z.leb_le in H1. apply Z.ltb_lt in H2.
  pose proof (to_ulong_le (base_frame_no p + nframes p) ltac:(lia)).
  pose proof (to_ulong_range (base_frame_no p + nframes p)).
  split; [lia | apply to_ulong_small; lia].
Qed.

(** Without wrap-around in [base_frame_no + nframes], the test of the
    search loop is membership in the range of the pool. *)
Lemma owns_iff p first :
  pool_wf p -> base_frame_no p + nframes p < 2 ^ ULONG_BITS ->
  owns p first = true <->
  base_frame_no p <= first < base_frame_no p + nframes p.
Proof.
  intros [Hb Hn] Hsum. unfold owns.
  rewrite to_ulong_small by lia.
  rewrite andb_true_iff, Z.leb_le, Z.ltb_lt. reflexivity.
Qed.

Lemma find_pool_none pools first :
  (forall p, In p pools -> owns p first = false) ->
  find_pool pools first = None.
Proof.
  induction pools as [| p rest IH]; intro H; simpl.
  - reflexivity.
  - rewrite (H p) by (now left). apply IH. intros q Hq. apply H. now right.
Qed.

Lemma find_pool_some pools first q :
  In q pools -> owns q first = true ->
  exists p, find_pool pools first = Some p /\ In p pools /\
            owns p first = true.
Proof.
  induction pools as [| p rest IH]; intros Hin Hq; simpl in *.
  - contradiction.
  - destruct (owns p first) eqn:E.
    + exists p. auto.
    + destruct Hin as [-> | Hin]; [congruence |].
      destruct (IH Hin Hq) as (p' & ? & ? & ?). exists p'. auto.
Qed.

Lemma find_pool_owns pools first p :
  find_pool pools first = Some p -> owns p first = true.
Proof.
  induction pools as [| q rest IH]; simpl; [discriminate |].
  destruct (owns q first) eqn:E; [| exact IH].
  intro H. inversion H. subst. exact E.
Qed.

(** C8: when no pool of the table contains the frame, [release_frames]
    returns with the world as it was: memory (so every bitmap), every pool
    object with its counter and the table are unchanged, and the assertion
    does not fire. *)
Theorem release_unknown_frame_is_noop first w :
  Forall pool_wf (frame_pools w) ->
  (forall p, In p (frame_pools w) ->
     ~ base_frame_no p <= first < base_frame_no p + nframes p) ->
  release_frames first w = Done w.
Proof.
  intros Hwf Hno. unfold release_frames.
  rewrite find_pool_none; [reflexivity |].
  intros p Hp. destruct (owns p first) eqn:E; [exfalso | reflexivity].
  rewrite Forall_forall in Hwf.
  apply (Hno p Hp). now apply owns_range; auto.
Qed.

Lemma release_unknown_frame_is_noop_witness :
  release_frames 100 (mkWorld boot_memory [mkPool 200 8 7 0 819200]) =
  Done (mkWorld boot_memory [mkPool 200 8 7 0 819200]).
Proof.
  apply release_unknown_frame_is_noop.
  - repeat constructor; simpl; unfold FRAME_SIZE, ULONG_BITS; lia.
  - simpl. intros p [<- | []]. simpl. lia.
Defined.

(** C7: when some pool of the table owns the frame, the search finds a
    pool [p] of the table that owns it, and [release_frames] halts on the
    assertion exactly when the state of the frame in [p] is not [HoS], and
    returns exactly when it is [HoS]. *)
Theorem release_asserts_head_of_sequence first w q :
  Forall pool_wf (frame_pools w) ->
  In q (frame_pools w) -> owns q first = true ->
  exists p,
    find_pool (frame_pools w) first = Some p /\
    In p (frame_pools w) /\ owns p first = true /\
    (release_frames first w = AssertFail <->
       state_at p (mem w) (first - base_frame_no p) <> HoS) /\
    ((exists w', release_frames first w = Done w') <->
       state_at p (mem w) (first - base_frame_no p) = HoS).
Proof.
  intros Hwf Hin Hq.
  destruct (find_pool_some _ _ _ Hin Hq) as (p & Hf & Hp & Ho).
  exists p. repeat split; auto; unfold release_frames, state_at;
    rewrite Hf; cbv zeta; rewrite Forall_forall in Hwf;
    destruct (owns_range p first (Hwf p Hp) Ho) as [_ ->];
    destruct (FrameState_eqb _ HoS) eqn:E.
  - discriminate.
  - intros _. now apply FrameState_eqb_neq.
  - apply FrameState_eqb_eq in E. congruence.
  - reflexivity.
  - intros _. now apply FrameState_eqb_eq.
  - intros [w' H]. discriminate.
  - intros _. eexists. reflexivity.
  - apply FrameState_eqb_neq in E. congruence.
Qed.

Lemma release_asserts_head_of_sequence_witness :
  exists p,
    find_pool [mkPool 200 8 7 0 819200] 203 = Some p /\
    In p [mkPool 200 8 7 0 819200] /\ owns p 203 = true /\
    (release_frames 203 (mkWorld (fun _ => 0) [mkPool 200 8 7 0 819200]) =
       AssertFail <-> state_at p (fun _ => 0) (203 - base_frame_no p) <> HoS) /\
    ((exists w',
        release_frames 203 (mkWorld (fun _ => 0) [mkPool 200 8 7 0 819200]) =
          Done w') <-> state_at p (fun _ => 0) (203 - base_frame_no p) = HoS).
Proof.
  apply (release_asserts_head_of_sequence 203
           (mkWorld (fun _ => 0) [mkPool 200 8 7 0 819200])
           (mkPool 200 8 7 0 819200)).
  - repeat constructor; simpl; unfold FRAME_SIZE, ULONG_BITS; lia.
  - simpl. now left.
  - vm_compute. reflexivity.
Defined.

(** ** Releasing a run *)

(** [release_frames] writes no pool object either. *)
Lemma release_frames_keeps_pools first w w' :
  release_frames first w = Done w' -> frame_pools w' = frame_pools w.
Proof.
  unfold release_frames. destruct (find_pool _ first).
  - cbv zeta. destruct (FrameState_eqb _ HoS); intro H; inversion H.
    reflexivity.
  - intro H. inversion H. reflexivity.
Qed.

(** The while loop stops by its own test: fuel beyond the frames left in
    the pool is never used. *)
Lemma release_loop_fuel pool fuel :
  forall frame_ind m,
    nframes pool < 2 ^ ULONG_BITS -> 0 <= frame_ind ->
    nframes pool - frame_ind <= Z.of_nat fuel ->
    release_loop fuel pool frame_ind m =
    release_loop (Z.to_nat (nframes pool - frame_ind)) pool frame_ind m.
Proof.
  induction fuel as [| k IH]; intros ind m Hn Hi Hf.
  - replace (Z.to_nat (nframes pool - ind)) with O by lia. reflexivity.
  - destruct (Z.ltb_spec ind (nframes pool)) as [Hlt | Hge].
    + replace (Z.to_nat (nframes pool - ind))
        with (S (Z.to_nat (nframes pool - (ind + 1)))) by lia.
      cbn [release_loop].
      destruct (_ && _); [| reflexivity].
      rewrite to_ulong_small by lia.
      apply IH; lia.
    + replace (Z.to_nat (nframes pool - ind)) with O by lia.
      cbn [release_loop].
      destruct (Z.ltb_spec ind (nframes pool)); [lia | reflexivity].
Qed.

(** Writing the counter of a pool object does not change where a frame is
    routed. *)
Lemma find_pool_replace this' first :
  forall pools k this p,
    nth_error pools k = Some this -> same_region this this' ->
    find_pool pools first = Some p ->
    exists p', find_pool (replace_pool k this' pools) first = Some p' /\
               same_region p p'.
Proof.
  assert (Hrefl : forall p, same_region p p) by (intro; repeat split).
  induction pools as [| q rest IH]; intros k this p Hk Hsame Hf.
  - discriminate.
  - destruct k as [| k]; simpl in *.
    + inversion Hk. subst q.
      assert (Ho : owns this' first = owns this first).
      { destruct Hsame as (Eb & En & _). unfold owns. now rewrite Eb, En. }
      rewrite Ho. destruct (owns this first).
      * inversion Hf. subst. exists this'. auto.
      * exists p. auto.
    + destruct (owns q first).
      * inversion Hf. subst. exists p. auto.
      * eapply IH; eauto.
Qed.

Lemma release_loop_same_region p p' fuel :
  same_region p p' ->
  forall i m, release_loop fuel p' i m = release_loop fuel p i m.
Proof.
  intros (_ & En & Ebm). induction fuel as [| k IH]; intros i m.
  - reflexivity.
  - cbn [release_loop]. rewrite En, Ebm.
    destruct (_ && _); [apply IH | reflexivity].
Qed.

(** The while loop on a run whose frames from [i] on are [Used] and which
    ends at the end of the pool or before a frame that is not [Used]: it
    frees the rest of the run and nothing else. *)
Lemma release_loop_frees_run p c n fuel :
  pool_wf p -> 0 <= c -> c + n <= nframes p ->
  forall i m,
    c < i <= c + n -> nframes p - i <= Z.of_nat fuel ->
    (forall j, i <= j < c + n -> state_at p m j = Used) ->
    (c + n < nframes p -> state_at p m (c + n) <> Used) ->
    (forall j, i <= j < c + n ->
       state_at p (release_loop fuel p i m) j = Free) /\
    (forall j, 0 <= j < nframes p -> ~ i <= j < c + n ->
       state_at p (release_loop fuel p i m) j = state_at p m j).
Proof.
  intros [Hb Hnf] Hc Hcn. unfold FRAME_SIZE in Hnf.
  induction fuel as [| k IH]; intros i m Hi Hfuel Hused Hend.
  - simpl. split; [intros j Hj; lia | auto].
  - cbn [release_loop]. fold (state_at p m i).
    destruct (Z.eq_dec i (c + n)) as [-> | Hne].
    + destruct (Z.ltb_spec (c + n) (nframes p)) as [Hlt | Hge]; simpl.
      * destruct (FrameState_eqb _ Used) eqn:E.
        -- apply FrameState_eqb_eq in E. now destruct (Hend Hlt).
        -- split; [intros j Hj; lia | auto].
      * split; [intros j Hj; lia | auto].
    + destruct (Z.ltb_spec i (nframes p)); [| lia].
      rewrite (Hused i) by lia. simpl.
      rewrite to_ulong_small by range.
      assert (Ri : frame_range i) by range.
      destruct (IH (i + 1) (set_state (bitmap p) m i Free)) as [IH1 IH2];
        try lia.
      * intros j Hj. unfold state_at.
        rewrite get_state_set_other by (auto; range).
        apply Hused. lia.
      * intros Hlt. unfold state_at.
        rewrite get_state_set_other by (auto; range).
        auto.
      * split.
        -- intros j Hj. destruct (Z.eq_dec j i) as [-> | Hji].
           ++ rewrite IH2 by lia. apply get_state_set_same.
           ++ apply IH1. lia.
        -- intros j Hj Hout. rewrite IH2 by lia. unfold state_at.
           apply get_state_set_other; auto; range.
Qed.

(** X14: after [get_frames(n)] on the pool at position [k] has returned a
    frame [r] other than 0 that the table routes to this pool,
    [release_frames(r)] returns and every frame of the pool has the state
    it had before the allocation, provided no [Used] frame followed a [Free]
    one then. The pool objects are those [get_frames] left: the counter
    stays decremented by [n]. *)
Lemma get_then_release_restores_states this k n w r w1 :
  pool_wf this -> 1 <= n ->
  nth_error (frame_pools w) k = Some this ->
  find_pool (frame_pools w) r = Some this ->
  (forall j, 0 < j < nframes this -> state_at this (mem w) j = Used ->
     state_at this (mem w) (j - 1) <> Free) ->
  call_get_frames k n w = Some (r, w1) -> r <> 0 ->
  exists w2,
    release_frames r w1 = Done w2 /\
    (forall j, 0 <= j < nframes this ->
       state_at this (mem w2) j = state_at this (mem w) j) /\
    frame_pools w2 =
      replace_pool k
        (set_nFreeFrames this (to_ulong (nFreeFrames this - n)))
        (frame_pools w).
Proof.
  intros Hwf Hn Hk Hroute Hord Hcall Hr.
  pose proof Hwf as [Hb Hnf]. unfold FRAME_SIZE in Hnf.
  unfold call_get_frames in Hcall. rewrite Hk in Hcall.
  destruct (get_frames_cases this (mem w) n Hwf Hn)
    as [(c & [Hrun Hlow] & Heq) | [_ Heq]];
    rewrite Heq in Hcall; [| inversion Hcall; congruence].
  unfold committed in Hcall. inversion Hcall as [[Er Ew1]]. clear Hcall.
  set (this' := set_nFreeFrames this (to_ulong (nFreeFrames this - n))) in *.
  set (m1 := set_states _ _ _ _ _) in *.
  destruct Hrun as (Hc0 & Hcn & Hfree).
  assert (Hmark : marked_run this (mem w) m1 c n)
    by (apply mark_run_spec; lia).
  destruct Hmark as (Hhead & Hbody & Hrest).
  (* the frame returned is [base_frame_no + c], without wrap-around *)
  pose proof (find_pool_owns _ _ _ Hroute) as Ho.
  destruct (owns_range _ _ Hwf Ho) as [[Hlo _] _].
  assert (Esum : r = base_frame_no this + c).
  { rewrite <- Er in *. unfold to_ulong, ULONG_BITS in *.
    destruct (Z.lt_ge_cases (base_frame_no this + c) (2 ^ 64)) as [Hs | Hs].
    - apply Z.mod_small. lia.
    - exfalso.
      replace (base_frame_no this + c)
        with (base_frame_no this + c - 2 ^ 64 + 1 * 2 ^ 64) in Hlo by lia.
      rewrite Z.mod_add, Z.mod_small in Hlo; lia. }
  (* routing after the counter was written *)
  assert (Hsame : same_region this this') by (repeat split).
  destruct (find_pool_replace this' r _ _ _ _ Hk Hsame Hroute)
    as (p' & Hf' & Hsame').
  pose proof Hsame' as (Eb & En & Ebm).
  eexists. unfold release_frames. cbn [frame_pools mem]. rewrite Er.
  rewrite Hf'. cbv zeta. rewrite Eb, En, Ebm.
  replace (to_ulong (r - base_frame_no this)) with c
    by (rewrite to_ulong_small; range).
  fold (state_at this m1 c). rewrite Hhead. simpl.
  rewrite (to_ulong_small (c + 1)) by range.
  split; [reflexivity |]. cbn [mem frame_pools]. split; [| reflexivity].
  rewrite (release_loop_same_region this p') by exact Hsame'.
  assert (Rc : frame_range c) by range.
  destruct (release_loop_frees_run this c n
              (Z.to_nat (nframes this - (c + 1))) Hwf Hc0 Hcn (c + 1)
              (set_state (bitmap this) m1 c Free)) as [L1 L2]; try lia.
  - intros j Hj. unfold state_at.
    rewrite get_state_set_other by (auto; range).
    apply Hbody. lia.
  - intros Hlt. unfold state_at.
    rewrite get_state_set_other by (auto; range).
    fold (state_at this m1 (c + n)). rewrite Hrest by lia.
    intro HU. apply (Hord (c + n)); auto; try lia.
    replace (c + n - 1) with (c + (n - 1)) by lia. apply Hfree. lia.
  - intros j Hj.
    destruct (Z.lt_ge_cases j c) as [H1 | H1];
      [| destruct (Z.lt_ge_cases j (c + n)) as [H2 | H2]].
    + rewrite L2 by lia. unfold state_at.
      rewrite get_state_set_other by (auto; range).
      apply Hrest; lia.
    + rewrite Hfree by lia.
      destruct (Z.eq_dec j c) as [-> | Hjc].
      * rewrite L2 by lia. apply get_state_set_same.
      * apply L1. lia.
    + rewrite L2 by lia. unfold state_at.
      rewrite get_state_set_other by (auto; range).
      apply Hrest; lia.
Qed.

(** C2: [release_frames] frees the run and does not touch the counter.
    On the fresh pool of frames 100 .. 115, [get_frames(4)] returns 100 and
    takes the counter from 16 to 12; [release_frames(100)] then frees the
    four frames again and leaves the counter at 12. *)
Theorem release_after_get_keeps_counter :
  returned (and_then pool_100
              (fun w => Done (fst (do_get_frames 0 4 w)))) = Some 100 /\
  observe (and_then pool_100
             (fun w => Done (snd (do_get_frames 0 4 w)))) =
    Some ([HoS; Used; Used; Used; Free; Free; Free; Free;
           Free; Free; Free; Free; Free; Free; Free; Free], 12, 12) /\
  observe (and_then pool_100
             (fun w => release_frames 100 (snd (do_get_frames 0 4 w)))) =
    Some ([Free; Free; Free; Free; Free; Free; Free; Free;
           Free; Free; Free; Free; Free; Free; Free; Free], 12, 16).
Proof. repeat split; vm_compute; reflexivity. Qed.

(** ** The counter of free frames *)

(** C1: reachable states in which the counter differs from the number of
    free frames. A pool of four frames, [get_frames(4)],
    [release_frames], and [get_frames(4)] again: all four frames are in
    use, none is free, and the counter, decremented twice and never
    incremented, has wrapped around to [2 ^ 64 - 4]. And on a fresh pool of
    16 frames, [mark_inaccessible(110, 3)] leaves 13 frames free and the
    counter at 16. *)
Theorem counter_differs_from_free_frames :
  observe
    (and_then (construct 100 4 99 boot) (fun w0 =>
     and_then (release_frames 100 (snd (do_get_frames 0 4 w0))) (fun w1 =>
     Done (snd (do_get_frames 0 4 w1))))) =
    Some ([HoS; Used; Used; Used], 2 ^ 64 - 4, 0) /\
  option_map (fun o => (snd (fst o), snd o))
    (observe (and_then pool_100
                (fun w => Done (do_mark_inaccessible 0 110 3 w)))) =
    Some (16, 13).
Proof. split; vm_compute; reflexivity. Qed.

(** ** The table of pools *)

(** The constructor stores past the end of the table whenever the table
    is full and the assertion on the size of the pool passes. *)
Lemma construct_full_table b n i w :
  n <= FRAME_SIZE * 4 -> frame_pools_capacity <= n_frame_pools w ->
  construct b n i w = OutOfBounds.
Proof.
  intros Hn Hfull. unfold construct.
  destruct (Z.leb_spec n (FRAME_SIZE * 4)); [| lia]. simpl.
  destruct (Z.ltb_spec (n_frame_pools w) frame_pools_capacity); [lia |].
  reflexivity.
Qed.

(** C6: the table has 100 entries and the constructor does not test for a
    full table. After 100 constructions the table holds 100 pools, and the
    next construction stores past its end instead of halting on an
    assertion. *)
Theorem construct_overflows_full_table :
  frame_pools_capacity = 100 /\
  option_map n_frame_pools (returned (construct_many 100 boot)) = Some 100 /\
  and_then (construct_many 100 boot) (construct 2000 4 999) = OutOfBounds /\
  and_then (construct_many 100 boot) (construct 2000 4 999) <> AssertFail.
Proof.
  assert (H : and_then (construct_many 100 boot) (construct 2000 4 999)
              = OutOfBounds) by (vm_compute; reflexivity).
  repeat split; try (vm_compute; reflexivity); try exact H.
  rewrite H. discriminate.
Qed.

(** * Further properties of the code *)

(** ** The sizing helper *)

(** X1: for every [unsigned long] argument, [needed_info_frames] is the
    number of frames rounded up to whole bitmap frames of [FRAME_SIZE * 4]
    slots: the least [k] with [n <= k * (FRAME_SIZE * 4)]. *)
Theorem needed_info_frames_ceiling n :
  0 <= n < 2 ^ ULONG_BITS ->
  n <= needed_info_frames n * (FRAME_SIZE * 4) /\
  needed_info_frames n * (FRAME_SIZE * 4) < n + FRAME_SIZE * 4 /\
  0 <= needed_info_frames n.
Proof.
  intro Hn. unfold needed_info_frames, FRAME_SIZE, ULONG_BITS in *.
  change (4096 * 4) with 16384.
  pose proof (Z.div_mod n 16384 ltac:(lia)) as Hdm.
  pose proof (Z.mod_pos_bound n 16384 ltac:(lia)) as Hmod.
  assert (Hq : 0 <= n / 16384 < 2 ^ 50).
  { split; [apply Z.div_pos; lia |].
    apply Z.div_lt_upper_bound; [lia |]. change (16384 * 2 ^ 50) with (2 ^ 64).
    lia. }
  destruct (Z.ltb_spec 0 (n mod 16384));
    (rewrite to_ulong_small by (unfold ULONG_BITS; lia)); lia.
Qed.

Lemma needed_info_frames_ceiling_witness :
  16385 <= needed_info_frames 16385 * (FRAME_SIZE * 4) /\
  needed_info_frames 16385 * (FRAME_SIZE * 4) < 16385 + FRAME_SIZE * 4 /\
  0 <= needed_info_frames 16385.
Proof.
  apply (needed_info_frames_ceiling 16385). unfold ULONG_BITS. lia.
Defined.

(** ** The codec as a store of states *)

(** X2: [set_state] followed by [get_state] on frame numbers below
    [2 ^ 34]: the frame written reads back the state written, and every
    other frame reads as before. *)
Theorem get_state_after_set_state bm m i s j :
  frame_range i -> frame_range j ->
  get_state bm (set_state bm m i s) j =
    if j =? i then s else get_state bm m j.
Proof.
  intros Hi Hj. destruct (Z.eqb_spec j i) as [-> | Hne].
  - apply get_state_set_same.
  - now apply get_state_set_other.
Qed.

Lemma get_state_after_set_state_witness :
  get_state 405504 (set_state 405504 boot_memory 5 HoS) 6 =
    if 6 =? 5 then HoS else get_state 405504 boot_memory 6.
Proof.
  apply (get_state_after_set_state 405504 boot_memory 5 HoS 6);
    unfold frame_range; lia.
Defined.

(** X3: [set_state] writes one byte, the byte at [_frame_no / 4] from the
    start of the bitmap: the value stored there is a byte, and memory at
    every other address is as before. *)
Theorem set_state_writes_one_byte bm m i s x :
  0 <= set_state bm m i s (bm + to_uint (i / 4)) < 2 ^ 8 /\
  (x <> bm + to_uint (i / 4) -> set_state bm m i s x = m x).
Proof.
  split.
  - rewrite set_state_at. unfold write_byte, to_uchar.
    apply Z.mod_pos_bound. lia.
  - apply set_state_elsewhere.
Qed.

(** ** Counting free frames *)

Lemma count_free_upto_S p m N :
  count_free_upto p m (S N) =
    count_free_upto p m N +
    (if FrameState_eqb (state_at p m (Z.of_nat N)) Free then 1 else 0).
Proof.
  unfold count_free_upto.
  rewrite seq_S, map_app, filter_app, length_app. simpl.
  destruct (FrameState_eqb _ Free); simpl; lia.
Qed.

Lemma count_free_all p m : count_free p m = count_free_upto p m (Z.to_nat (nframes p)).
Proof. reflexivity. Qed.

Lemma count_free_upto_range p m N : 0 <= count_free_upto p m N <= Z.of_nat N.
Proof.
  induction N as [| N IH].
  - unfold count_free_upto. simpl. lia.
  - rewrite count_free_upto_S. destruct (FrameState_eqb _ Free); lia.
Qed.

(** Between two memories that agree outside the window [c .. c + n - 1],
    where the first has only free frames in the window and the second has
    none, the numbers of free frames differ by the size of the window. *)
Lemma count_free_upto_window p m m' c n N :
  0 <= c -> 0 <= n ->
  (forall j, 0 <= j < Z.of_nat N -> c <= j < c + n ->
     state_at p m j = Free /\ state_at p m' j <> Free) ->
  (forall j, 0 <= j < Z.of_nat N -> ~ c <= j < c + n ->
     state_at p m' j = state_at p m j) ->
  count_free_upto p m' N = count_free_upto p m N - overlap (Z.of_nat N) c n.
Proof.
  intros Hc Hn. unfold overlap.
  induction N as [| N IH]; intros Hin Hout.
  - unfold count_free_upto. simpl. lia.
  - rewrite !count_free_upto_S,
      IH by (intros; first [apply Hin; lia | apply Hout; lia]).
    destruct (Z.le_gt_cases c (Z.of_nat N)) as [H1 | H1];
      [destruct (Z.lt_ge_cases (Z.of_nat N) (c + n)) as [H2 | H2] |].
    + destruct (Hin (Z.of_nat N)) as [Ef Enf]; try lia.
      rewrite Ef. apply FrameState_eqb_neq in Enf. rewrite Enf. simpl. lia.
    + rewrite (Hout (Z.of_nat N)) by lia.
      destruct (FrameState_eqb _ Free); lia.
    + rewrite (Hout (Z.of_nat N)) by lia.
      destruct (FrameState_eqb _ Free); lia.
Qed.

(** Marking a free run of [n] frames takes [n] from the number of free
    frames. *)
Lemma count_free_marked_run p m m' c n :
  0 <= nframes p -> 1 <= n ->
  free_run p m c n -> marked_run p m m' c n ->
  count_free p m' = count_free p m - n.
Proof.
  intros Hp Hn (Hc0 & Hcn & Hfree) (Hhead & Hbody & Hrest).
  rewrite !count_free_all.
  rewrite (count_free_upto_window p m m' c n); try lia.
  - unfold overlap. rewrite Z2Nat.id by lia. lia.
  - intros j Hj Hw. split; [apply Hfree; lia |].
    destruct (Z.eq_dec j c) as [-> | Hne];
      [rewrite Hhead | rewrite Hbody by lia]; discriminate.
  - intros j Hj Hw. apply Hrest; [rewrite Z2Nat.id in Hj |]; lia.
Qed.

(** A free run of [n] frames is counted among the free frames. *)
Lemma free_run_counted p m c n :
  0 <= nframes p <= 2 ^ 34 -> 1 <= n -> free_run p m c n ->
  n <= count_free p m.
Proof.
  intros Hp Hn Hrun. pose proof Hrun as (Hc0 & Hcn & _).
  pose proof (mark_run_spec p m c n Hc0 Hn ltac:(lia) ltac:(lia)) as Hmark.
  pose proof (count_free_marked_run p m _ c n ltac:(lia) Hn Hrun Hmark) as E.
  rewrite count_free_all in E at 1.
  pose proof (count_free_upto_range p
    (set_states (bitmap p) (Z.to_nat (n - 1)) (c + 1) Used
       (set_state (bitmap p) m c HoS)) (Z.to_nat (nframes p))).
  lia.
Qed.

(** ** The counter under construction and allocation *)

Lemma count_free_upto_all_free p m N :
  (forall j, 0 <= j < Z.of_nat N -> state_at p m j = Free) ->
  count_free_upto p m N = Z.of_nat N.
Proof.
  induction N as [| N IH]; intro H.
  - reflexivity.
  - rewrite count_free_upto_S, IH by (intros; apply H; lia).
    rewrite (H (Z.of_nat N)) by lia. simpl. lia.
Qed.

Lemma count_free_upto_but_first p m N :
  state_at p m 0 <> Free ->
  (forall j, 1 <= j < Z.of_nat (S N) -> state_at p m j = Free) ->
  count_free_upto p m (S N) = Z.of_nat N.
Proof.
  intros H0. induction N as [| N IH]; intro H.
  - rewrite count_free_upto_S. simpl.
    apply FrameState_eqb_neq in H0. rewrite H0. reflexivity.
  - rewrite count_free_upto_S, IH by (intros; apply H; lia).
    rewrite (H (Z.of_nat (S N))) by lia. cbn [FrameState_eqb]. lia.
Qed.

(** The pool that a returning construction appends to the table: its
    fields, and the states the two loops of the constructor leave. *)
Lemma construct_new_pool b n i w w' :
  0 <= n -> construct b n i w = Done w' ->
  exists this,
    frame_pools w' = frame_pools w ++ [this] /\
    base_frame_no this = b /\ nframes this = n /\ n <= FRAME_SIZE * 4 /\
    nFreeFrames this = (if i =? 0 then to_ulong (n - 1) else n) /\
    (forall j, (if i =? 0 then 1 else 0) <= j < n ->
       state_at this (mem w') j = Free) /\
    (i = 0 -> state_at this (mem w') 0 = Used).
Proof.
  intros Hn. unfold construct.
  destruct (Z.leb_spec n (FRAME_SIZE * 4)) as [Hcap | Hcap]; [| discriminate].
  cbn [negb]. cbv zeta.
  destruct (n_frame_pools w <? frame_pools_capacity); [| discriminate].
  intro Hd. inversion Hd as [Hw']. clear Hd Hw'.
  eexists. split; [reflexivity |]. cbn [mem frame_pools].
  split; [reflexivity |]. split; [reflexivity |]. split; [exact Hcap |].
  split; [reflexivity |]. unfold FRAME_SIZE in Hcap.
  assert (Hfree : forall bm j, 0 <= j < n ->
            get_state bm (set_states bm (Z.to_nat n) 0 Free (mem w)) j = Free).
  { intros bm j Hj. rewrite get_state_set_states by range.
    rewrite Z2Nat.id by lia.
    destruct (Z.leb_spec 0 j), (Z.ltb_spec j (0 + n)); simpl; auto; lia. }
  unfold state_at. cbn [bitmap].
  destruct (Z.eqb_spec i 0) as [Hi | Hi]; split.
  - intros j Hj. rewrite get_state_set_other by range. apply Hfree. lia.
  - intros _. apply get_state_set_same.
  - intros j Hj. apply Hfree. lia.
  - intro. contradiction.
Qed.

(** X4: a construction that returns leaves a new pool at the end of the
    table whose counter is the number of its free frames: all frames are
    [Free] with an external bitmap, all but frame 0 when self-hosted (the
    pool then has at least one frame). *)
Theorem construct_counter_exact b n i w w' :
  0 <= n -> (i = 0 -> 1 <= n) ->
  construct b n i w = Done w' ->
  exists this,
    frame_pools w' = frame_pools w ++ [this] /\
    base_frame_no this = b /\ nframes this = n /\
    (forall j, (if i =? 0 then 1 else 0) <= j < n ->
       state_at this (mem w') j = Free) /\
    nFreeFrames this = count_free this (mem w').
Proof.
  intros Hn Hself Hd.
  destruct (construct_new_pool b n i w w' Hn Hd)
    as (this & Htab & Hb & Hnf & Hcap & Hcnt & Hfree & Hused).
  exists this. repeat split; auto.
  rewrite Hcnt, count_free_all, Hnf. unfold FRAME_SIZE in Hcap.
  destruct (Z.eqb_spec i 0) as [Hi | Hi].
  - specialize (Hself Hi). rewrite to_ulong_small by range.
    replace (Z.to_nat n) with (S (Z.to_nat (n - 1))) by lia.
    rewrite count_free_upto_but_first; [lia | |].
    + rewrite (Hused Hi). discriminate.
    + intros j Hj. apply Hfree. lia.
  - rewrite count_free_upto_all_free; [lia |].
    intros j Hj. apply Hfree. lia.
Qed.

Lemma construct_counter_exact_witness :
  exists this,
    frame_pools (mkWorld
      (set_states (to_ulong (99 * FRAME_SIZE)) (Z.to_nat 16) 0 Free
         boot_memory)
      [mkPool 100 16 16 99 (to_ulong (99 * FRAME_SIZE))]) =
      frame_pools boot ++ [this] /\
    base_frame_no this = 100 /\ nframes this = 16 /\
    (forall j, (if 99 =? 0 then 1 else 0) <= j < 16 ->
       state_at this
         (mem (mkWorld
            (set_states (to_ulong (99 * FRAME_SIZE)) (Z.to_nat 16) 0 Free
               boot_memory)
            [mkPool 100 16 16 99 (to_ulong (99 * FRAME_SIZE))])) j = Free) /\
    nFreeFrames this =
      count_free this
        (mem (mkWorld
           (set_states (to_ulong (99 * FRAME_SIZE)) (Z.to_nat 16) 0 Free
              boot_memory)
           [mkPool 100 16 16 99 (to_ulong (99 * FRAME_SIZE))])).
Proof.
  apply (construct_counter_exact 100 16 99 boot).
  - lia.
  - intro H. discriminate H.
  - reflexivity.
Defined.

(** X5: [get_frames] keeps the counter exact: when the counter is the
    number of free frames before the call, it is so after it, whether or
    not the call finds a run. *)
Theorem get_frames_keeps_counter_exact this m n :
  pool_wf this -> 1 <= n ->
  nFreeFrames this = count_free this m ->
  nFreeFrames (snd (fst (get_frames this m n))) =
    count_free (snd (fst (get_frames this m n))) (snd (get_frames this m n)).
Proof.
  intros Hwf Hn Hexact. pose proof Hwf as [_ Hnf]. unfold FRAME_SIZE in Hnf.
  destruct (get_frames_cases this m n Hwf Hn)
    as [(c & [Hrun _] & ->) | [_ ->]]; [| exact Hexact].
  unfold committed. cbn [fst snd nFreeFrames].
  pose proof Hrun as (Hc0 & Hcn & _).
  pose proof (mark_run_spec this m c n Hc0 Hn ltac:(lia) ltac:(lia)) as Hmark.
  pose proof (free_run_counted this m c n ltac:(lia) Hn Hrun) as Hle.
  pose proof (count_free_upto_range this m (Z.to_nat (nframes this))) as Hub.
  rewrite <- count_free_all in Hub.
  rewrite to_ulong_small by range.
  rewrite Hexact.
  symmetry. exact (count_free_marked_run this m _ c n ltac:(lia) Hn Hrun Hmark).
Qed.

Lemma get_frames_keeps_counter_exact_witness :
  nFreeFrames
    (snd (fst (get_frames (mkPool 100 16 16 99 405504) (fun _ => 0) 4))) =
  count_free
    (snd (fst (get_frames (mkPool 100 16 16 99 405504) (fun _ => 0) 4)))
    (snd (get_frames (mkPool 100 16 16 99 405504) (fun _ => 0) 4)).
Proof.
  apply (get_frames_keeps_counter_exact (mkPool 100 16 16 99 405504)
           (fun _ => 0) 4).
  - unfold pool_wf, FRAME_SIZE, ULONG_BITS. simpl. lia.
  - lia.
  - vm_compute. reflexivity.
Defined.

(** X6: a request for more frames than are free fails: [get_frames]
    returns 0 and writes neither the pool object nor memory. *)
Theorem get_frames_out_of_memory this m n :
  pool_wf this -> count_free this m < n ->
  get_frames this m n = (0, this, m).
Proof.
  intros Hwf Hlt. pose proof Hwf as [_ Hnf]. unfold FRAME_SIZE in Hnf.
  pose proof (count_free_upto_range this m (Z.to_nat (nframes this))) as Hub.
  rewrite <- count_free_all in Hub.
  assert (Hn : 1 <= n) by lia.
  destruct (get_frames_cases this m n Hwf Hn)
    as [(c & [Hrun _] & _) | [_ Heq]]; [| exact Heq].
  pose proof (free_run_counted this m c n ltac:(lia) Hn Hrun). lia.
Qed.

Lemma get_frames_out_of_memory_witness :
  get_frames (mkPool 100 16 16 99 405504) (fun _ => 0) 17 =
    (0, mkPool 100 16 16 99 405504, fun _ => 0).
Proof.
  apply (get_frames_out_of_memory (mkPool 100 16 16 99 405504)
           (fun _ => 0) 17).
  - unfold pool_wf, FRAME_SIZE, ULONG_BITS. simpl. lia.
  - vm_compute. reflexivity.
Defined.

(** ** Allocations *)

Lemma first_fit_unique p m n c c' :
  first_fit p m n c -> first_fit p m n c' -> c = c'.
Proof.
  intros [Hr Hl] [Hr' Hl'].
  pose proof (Hl c' Hr'). pose proof (Hl' c Hr). lia.
Qed.

(** X7: two allocations in a row never overlap. When [get_frames(n1)] and
    then [get_frames(n2)] each find a run, the two frames returned are
    [base_frame_no + c1] and [base_frame_no + c2] for runs
    [c1 .. c1 + n1 - 1] and [c2 .. c2 + n2 - 1] inside the pool that are
    disjoint. *)
Theorem consecutive_allocations_disjoint this m n1 n2 :
  pool_wf this -> 1 <= n1 -> 1 <= n2 ->
  (exists c, free_run this m c n1) ->
  (exists c, free_run (snd (fst (get_frames this m n1)))
               (snd (get_frames this m n1)) c n2) ->
  exists c1 c2,
    fst (fst (get_frames this m n1)) = to_ulong (base_frame_no this + c1) /\
    fst (fst (get_frames (snd (fst (get_frames this m n1)))
                (snd (get_frames this m n1)) n2)) =
      to_ulong (base_frame_no this + c2) /\
    0 <= c1 /\ c1 + n1 <= nframes this /\
    0 <= c2 /\ c2 + n2 <= nframes this /\
    (c1 + n1 <= c2 \/ c2 + n2 <= c1).
Proof.
  intros Hwf Hn1 Hn2 [c0 Hrun1] Hrun2.
  pose proof Hwf as [_ Hnf]. unfold FRAME_SIZE in Hnf.
  destruct (get_frames_cases this m n1 Hwf Hn1)
    as [(c1 & [Hr1 _] & E1) | [Hno _]]; [| now destruct (Hno c0)].
  rewrite E1 in *. unfold committed in *. cbn [fst snd] in *.
  set (this1 := set_nFreeFrames this _) in *.
  set (m1 := set_states _ _ _ _ _) in *.
  destruct Hrun2 as [c0' Hrun2].
  assert (Hwf1 : pool_wf this1) by exact Hwf.
  destruct (get_frames_cases this1 m1 n2 Hwf1 Hn2)
    as [(c2 & [Hr2 _] & E2) | [Hno _]]; [| now destruct (Hno c0')].
  rewrite E2. unfold committed. cbn [fst snd].
  exists c1, c2.
  destruct Hr1 as (H10 & H1n & _). destruct Hr2 as (H20 & H2n & Hfree2).
  cbn [nframes this1 set_nFreeFrames] in H2n.
  repeat split; auto.
  pose proof (mark_run_spec this m c1 n1 H10 Hn1 ltac:(lia) ltac:(lia))
    as (Hhead & Hbody & _). fold m1 in Hhead, Hbody.
  destruct (Z.le_gt_cases (c1 + n1) c2) as [|Ha]; [now left |].
  destruct (Z.le_gt_cases (c2 + n2) c1) as [|Hb]; [now right |].
  exfalso.
  assert (Hj : c2 <= Z.max c1 c2 < c2 + n2) by lia.
  specialize (Hfree2 _ Hj). unfold state_at in *. cbn [bitmap this1
    set_nFreeFrames] in Hfree2.
  destruct (Z.eq_dec (Z.max c1 c2) c1) as [E | E].
  - rewrite E, Hhead in Hfree2. discriminate.
  - rewrite Hbody in Hfree2 by lia. discriminate.
Qed.

Lemma consecutive_allocations_disjoint_witness :
  exists c1 c2,
    fst (fst (get_frames (mkPool 100 16 16 99 405504) (fun _ => 0) 4)) =
      to_ulong (base_frame_no (mkPool 100 16 16 99 405504) + c1) /\
    fst (fst (get_frames
                (snd (fst (get_frames (mkPool 100 16 16 99 405504)
                             (fun _ => 0) 4)))
                (snd (get_frames (mkPool 100 16 16 99 405504)
                        (fun _ => 0) 4)) 2)) =
      to_ulong (base_frame_no (mkPool 100 16 16 99 405504) + c2) /\
    0 <= c1 /\ c1 + 4 <= nframes (mkPool 100 16 16 99 405504) /\
    0 <= c2 /\ c2 + 2 <= nframes (mkPool 100 16 16 99 405504) /\
    (c1 + 4 <= c2 \/ c2 + 2 <= c1).
Proof.
  apply (consecutive_allocations_disjoint (mkPool 100 16 16 99 405504)
           (fun _ => 0) 4 2).
  - unfold pool_wf, FRAME_SIZE, ULONG_BITS. simpl. lia.
  - lia.
  - lia.
  - exists 0. repeat split; simpl; try lia.
    intros j Hj.
    assert (E : j = 0 \/ j = 1 \/ j = 2 \/ j = 3) by lia.
    destruct E as [-> | [-> | [-> | ->]]]; vm_compute; reflexivity.
  - exists 4. split; [lia |]. split; [vm_compute; discriminate |].
    intros j Hj.
    assert (E : j = 4 \/ j = 5) by lia.
    destruct E as [-> | ->]; vm_compute; reflexivity.
Defined.

(** X8: the sentinel is ambiguous for a pool that starts at frame 0: when
    the first [n] frames of such a pool are free, [get_frames(n)] allocates
    them (frame 0 becomes [HoS], the counter is decremented) and returns 0,
    the value it also returns when it finds nothing. *)
Theorem get_frames_returns_zero_on_success this m n :
  pool_wf this -> 1 <= n ->
  base_frame_no this = 0 -> free_run this m 0 n ->
  exists m',
    get_frames this m n =
      (0, set_nFreeFrames this (to_ulong (nFreeFrames this - n)), m') /\
    marked_run this m m' 0 n.
Proof.
  intros Hwf Hn Hbase Hrun.
  pose proof Hwf as [_ Hnf]. unfold FRAME_SIZE in Hnf.
  destruct (get_frames_cases this m n Hwf Hn)
    as [(c & [Hr Hlow] & E) | [Hno _]]; [| now destruct (Hno 0)].
  assert (c = 0) by (pose proof (Hlow 0 Hrun); destruct Hr; lia). subst c.
  eexists. split.
  - rewrite E. unfold committed. rewrite Hbase. reflexivity.
  - destruct Hrun as (_ & Hcn & _). apply mark_run_spec; lia.
Qed.

Lemma get_frames_returns_zero_on_success_witness :
  exists m',
    get_frames (mkPool 0 8 8 99 405504) (fun _ => 0) 1 =
      (0, set_nFreeFrames (mkPool 0 8 8 99 405504)
            (to_ulong (nFreeFrames (mkPool 0 8 8 99 405504) - 1)), m') /\
    marked_run (mkPool 0 8 8 99 405504) (fun _ => 0) m' 0 1.
Proof.
  apply (get_frames_returns_zero_on_success (mkPool 0 8 8 99 405504)
           (fun _ => 0) 1).
  - unfold pool_wf, FRAME_SIZE, ULONG_BITS. simpl. lia.
  - lia.
  - reflexivity.
  - repeat split; simpl; try lia.
    intros j Hj. assert (j = 0) by lia. subst j. vm_compute. reflexivity.
Defined.

(** X9: the first allocation from a pool just constructed starts at the
    first frame that is not reserved: [get_frames(k)] on the new pool
    returns [base_frame_no] with an external bitmap and [base_frame_no + 1]
    when self-hosted, for every [k] that fits. *)
Theorem first_allocation_on_fresh_pool b n i w w' k :
  0 <= b < 2 ^ ULONG_BITS -> 1 <= k ->
  k + (if i =? 0 then 1 else 0) <= n ->
  construct b n i w = Done w' ->
  exists w'',
    call_get_frames (length (frame_pools w)) k w' =
      Some (to_ulong (b + (if i =? 0 then 1 else 0)), w'').
Proof.
  intros Hb Hk Hfit Hd.
  assert (Hn : 0 <= n) by (destruct (i =? 0); lia).
  destruct (construct_new_pool b n i w w' Hn Hd)
    as (this & Htab & Hbase & Hnf & Hcap & _ & Hfree & Hused).
  assert (Hwf : pool_wf this) by (unfold pool_wf; lia).
  unfold call_get_frames. rewrite Htab.
  rewrite nth_error_app2, Nat.sub_diag by lia. cbn [nth_error].
  set (c0 := if i =? 0 then 1 else 0) in *.
  assert (Hc0 : 0 <= c0 <= 1) by (unfold c0; destruct (i =? 0); lia).
  assert (Hfit0 : first_fit this (mem w') k c0).
  { split.
    - repeat split; try lia. intros j Hj. apply Hfree. lia.
    - intros c' (Hc'0 & _ & Hall).
      destruct (Z.eqb_spec i 0) as [Hi | Hi]; [| unfold c0; lia].
      destruct (Z.eq_dec c' 0) as [-> | Hne]; [| lia].
      rewrite (Hall 0) in Hused by lia. specialize (Hused Hi). discriminate. }
  destruct (get_frames_cases this (mem w') k Hwf Hk)
    as [(c & Hc & ->) | [Hno _]]; [| now destruct (Hno c0), Hfit0].
  rewrite (first_fit_unique _ _ _ _ _ Hc Hfit0).
  unfold committed. rewrite Hbase. eexists. reflexivity.
Qed.

Lemma first_allocation_on_fresh_pool_witness :
  exists w'',
    call_get_frames (length (frame_pools boot)) 7
      (mkWorld
         (set_state (to_ulong (200 * FRAME_SIZE))
            (set_states (to_ulong (200 * FRAME_SIZE)) (Z.to_nat 8) 0 Free
               boot_memory) 0 Used)
         [mkPool 200 8 (to_ulong (8 - 1)) 0 (to_ulong (200 * FRAME_SIZE))]) =
      Some (to_ulong (200 + (if 0 =? 0 then 1 else 0)), w'').
Proof.
  apply (first_allocation_on_fresh_pool 200 8 0 boot).
  - unfold ULONG_BITS. lia.
  - lia.
  - simpl. lia.
  - reflexivity.
Defined.

(** ** Forced marking, whatever the frames hold *)

(** X10: on a range of at least one frame inside the pool,
    [mark_inaccessible] makes the first frame [HoS] and the others [Used]
    whatever their states were, leaves every other frame of the pool as it
    was, and writes no pool object. *)
Theorem mark_inaccessible_effect k b n w this :
  nth_error (frame_pools w) k = Some this -> pool_wf this -> 1 <= n ->
  base_frame_no this <= b -> b + n <= base_frame_no this + nframes this ->
  exists w',
    call_mark_inaccessible k b n w = Some w' /\
    frame_pools w' = frame_pools w /\
    marked_run this (mem w) (mem w') (b - base_frame_no this) n.
Proof.
  intros Hk Hwf Hn Hlo Hhi. unfold call_mark_inaccessible. rewrite Hk.
  eexists. split; [reflexivity |]. split; [reflexivity |].
  cbn [mem]. now apply mark_inaccessible_marks_run.
Qed.

Lemma mark_inaccessible_effect_witness :
  exists w',
    call_mark_inaccessible 0 110 3
      (mkWorld boot_memory [mkPool 100 16 16 99 405504]) = Some w' /\
    frame_pools w' =
      frame_pools (mkWorld boot_memory [mkPool 100 16 16 99 405504]) /\
    marked_run (mkPool 100 16 16 99 405504)
      (mem (mkWorld boot_memory [mkPool 100 16 16 99 405504])) (mem w')
      (110 - base_frame_no (mkPool 100 16 16 99 405504)) 3.
Proof.
  apply (mark_inaccessible_effect 0 110 3
           (mkWorld boot_memory [mkPool 100 16 16 99 405504])
           (mkPool 100 16 16 99 405504)).
  - reflexivity.
  - unfold pool_wf, FRAME_SIZE, ULONG_BITS. simpl. lia.
  - lia.
  - simpl. lia.
  - simpl. lia.
Defined.

(** X11: [mark_inaccessible] with a count of 0 still writes: the frame at
    [_base_frame_no] becomes [HoS], a run of one frame, and no other frame
    of the pool changes. *)
Theorem mark_inaccessible_zero_marks_head this m b :
  pool_wf this ->
  base_frame_no this <= b < base_frame_no this + nframes this ->
  state_at this (mark_inaccessible this m b 0) (b - base_frame_no this) = HoS /\
  (forall j, 0 <= j < nframes this -> j <> b - base_frame_no this ->
     state_at this (mark_inaccessible this m b 0) j = state_at this m j).
Proof.
  intros [Hb Hnf] Hin. unfold FRAME_SIZE in Hnf.
  unfold mark_inaccessible. cbv zeta.
  set (c := b - base_frame_no this).
  assert (Hc : 0 <= c < nframes this) by (unfold c; lia).
  rewrite (to_ulong_small c), (to_ulong_small (c + 1)),
    (to_ulong_small (c + 0)) by range.
  rewrite to_int_small by lia.
  rewrite (to_ulong_small (c + 1)) by range.
  replace (Z.to_nat (c + 0 - (c + 1))) with O by lia.
  cbn [set_states]. unfold state_at. split.
  - apply get_state_set_same.
  - intros j Hj Hne. apply get_state_set_other; auto; range.
Qed.

Lemma mark_inaccessible_zero_marks_head_witness :
  state_at (mkPool 100 16 16 99 405504)
    (mark_inaccessible (mkPool 100 16 16 99 405504) boot_memory 105 0)
    (105 - base_frame_no (mkPool 100 16 16 99 405504)) = HoS /\
  (forall j, 0 <= j < nframes (mkPool 100 16 16 99 405504) ->
     j <> 105 - base_frame_no (mkPool 100 16 16 99 405504) ->
     state_at (mkPool 100 16 16 99 405504)
       (mark_inaccessible (mkPool 100 16 16 99 405504) boot_memory 105 0) j =
     state_at (mkPool 100 16 16 99 405504) boot_memory j).
Proof.
  apply (mark_inaccessible_zero_marks_head (mkPool 100 16 16 99 405504)
           boot_memory 105).
  - unfold pool_wf, FRAME_SIZE, ULONG_BITS. simpl. lia.
  - simpl. lia.
Defined.

(** ** Releases *)

(** The while loop writes no frame below its start. *)
Lemma release_loop_below p fuel :
  pool_wf p ->
  forall i m j,
    0 <= j < i ->
    state_at p (release_loop fuel p i m) j = state_at p m j.
Proof.
  intros [_ Hnf]. unfold FRAME_SIZE in Hnf.
  induction fuel as [| k IH]; intros i m j Hj.
  - reflexivity.
  - cbn [release_loop].
    destruct (Z.ltb_spec i (nframes p)); [| reflexivity].
    destruct (FrameState_eqb _ Used); [| reflexivity]. simpl.
    rewrite to_ulong_small by range.
    rewrite IH by lia. unfold state_at.
    apply get_state_set_other; range.
Qed.

(** X12: [release_frames] recovers the length of a run from the bitmap.
    When the frame is routed to a pool where it is the [HoS] of [n - 1]
    [Used] frames, and the run ends at the end of the pool or before a frame
    that is not [Used], the call returns, exactly the [n] frames of the run
    are [Free] afterwards, every other frame of the pool is as before, and
    no pool object is written. *)
Theorem release_frames_frees_run first w p n :
  find_pool (frame_pools w) first = Some p -> pool_wf p -> 1 <= n ->
  first - base_frame_no p + n <= nframes p ->
  state_at p (mem w) (first - base_frame_no p) = HoS ->
  (forall j, first - base_frame_no p < j < first - base_frame_no p + n ->
     state_at p (mem w) j = Used) ->
  (first - base_frame_no p + n < nframes p ->
     state_at p (mem w) (first - base_frame_no p + n) <> Used) ->
  exists w',
    release_frames first w = Done w' /\
    frame_pools w' = frame_pools w /\
    (forall j, first - base_frame_no p <= j < first - base_frame_no p + n ->
       state_at p (mem w') j = Free) /\
    (forall j, 0 <= j < nframes p ->
       ~ first - base_frame_no p <= j < first - base_frame_no p + n ->
       state_at p (mem w') j = state_at p (mem w) j).
Proof.
  intros Hf Hwf Hn Hcn Hhead Hbody Hend.
  pose proof Hwf as [Hb Hnf]. unfold FRAME_SIZE in Hnf.
  destruct (owns_range _ _ Hwf (find_pool_owns _ _ _ Hf)) as [[Hlo _] Ec].
  set (c := first - base_frame_no p) in *.
  assert (Hc0 : 0 <= c) by (unfold c; lia).
  assert (Rc : frame_range c) by range.
  eexists. unfold release_frames. rewrite Hf. cbv zeta. fold c. rewrite Ec.
  fold (state_at p (mem w) c). rewrite Hhead. simpl.
  rewrite (to_ulong_small (c + 1)) by range.
  split; [reflexivity |]. split; [reflexivity |]. cbn [mem].
  destruct (release_loop_frees_run p c n
              (Z.to_nat (nframes p - (c + 1))) Hwf Hc0 Hcn (c + 1)
              (set_state (bitmap p) (mem w) c Free)) as [L1 L2]; try lia.
  - intros j Hj. unfold state_at.
    rewrite get_state_set_other by (auto; range). apply Hbody. lia.
  - intros Hlt. unfold state_at.
    rewrite get_state_set_other by (auto; range). auto.
  - split.
    + intros j Hj. destruct (Z.eq_dec j c) as [-> | Hjc].
      * rewrite L2 by lia. apply get_state_set_same.
      * apply L1. lia.
    + intros j Hj Hout. rewrite L2 by lia. unfold state_at.
      apply get_state_set_other; auto; range.
Qed.

(** X13: a frame cannot be released twice. After [release_frames] has
    returned for a frame that the table routes to a pool, a second
    [release_frames] of the same frame halts on the assertion. *)
Theorem double_release_asserts first w w' p :
  find_pool (frame_pools w) first = Some p -> pool_wf p ->
  release_frames first w = Done w' ->
  release_frames first w' = AssertFail.
Proof.
  intros Hf Hwf Hrel.
  pose proof Hwf as [Hb Hnf]. unfold FRAME_SIZE in Hnf.
  destruct (owns_range _ _ Hwf (find_pool_owns _ _ _ Hf)) as [[Hlo Hhi] Ec].
  unfold release_frames in *. rewrite Hf in Hrel. cbv zeta in Hrel.
  rewrite Ec in Hrel.
  destruct (FrameState_eqb _ HoS); [| discriminate].
  inversion Hrel as [Ew]. clear Hrel. cbn [frame_pools mem].
  rewrite Hf. cbv zeta. rewrite Ec.
  set (c := first - base_frame_no p) in *.
  fold (state_at p (release_loop (Z.to_nat (nframes p - to_ulong (c + 1))) p
                      (to_ulong (c + 1))
                      (set_state (bitmap p) (mem w) c Free)) c).
  rewrite to_ulong_small by (unfold c; range).
  rewrite release_loop_below by (auto; unfold c; lia).
  unfold state_at. rewrite get_state_set_same. reflexivity.
Qed.

Lemma release_frames_frees_run_witness :
  exists w',
    release_frames 100 world_16_alloc = Done w' /\
    frame_pools w' = frame_pools world_16_alloc /\
    (forall j, 100 - base_frame_no (mkPool 100 16 12 99 405504) <= j
               < 100 - base_frame_no (mkPool 100 16 12 99 405504) + 4 ->
       state_at (mkPool 100 16 12 99 405504) (mem w') j = Free) /\
    (forall j, 0 <= j < nframes (mkPool 100 16 12 99 405504) ->
       ~ 100 - base_frame_no (mkPool 100 16 12 99 405504) <= j
         < 100 - base_frame_no (mkPool 100 16 12 99 405504) + 4 ->
       state_at (mkPool 100 16 12 99 405504) (mem w') j =
       state_at (mkPool 100 16 12 99 405504) (mem world_16_alloc) j).
Proof.
  apply (release_frames_frees_run 100 world_16_alloc
           (mkPool 100 16 12 99 405504) 4).
  - vm_compute. reflexivity.
  - unfold pool_wf, FRAME_SIZE, ULONG_BITS. simpl. lia.
  - lia.
  - simpl. lia.
  - vm_compute. reflexivity.
  - cbn [base_frame_no]. intros j Hj.
    assert (E : j = 1 \/ j = 2 \/ j = 3) by lia.
    destruct E as [-> | [-> | ->]]; vm_compute; reflexivity.
  - intros _. vm_compute. discriminate.
Defined.

Lemma double_release_asserts_witness :
  release_frames 100
    (world_after (release_frames 100 world_16_alloc) world_16_alloc) =
  AssertFail.
Proof.
  apply (double_release_asserts 100 world_16_alloc _
           (mkPool 100 16 12 99 405504)).
  - vm_compute. reflexivity.
  - unfold pool_wf, FRAME_SIZE, ULONG_BITS. simpl. lia.
  - vm_compute. reflexivity.
Defined.

Lemma state_at_zero_memory p j : state_at p zero_memory j = Free.
Proof.
  unfold state_at, get_state, slot_bits, zero_memory. cbv zeta.
  rewrite Z.land_0_l, Z.shiftr_0_l. reflexivity.
Qed.

Lemma get_then_release_restores_states_witness :
  exists w2,
    release_frames 100 world_16_alloc = Done w2 /\
    (forall j, 0 <= j < nframes pool_16 ->
       state_at pool_16 (mem w2) j = state_at pool_16 (mem world_16) j) /\
    frame_pools w2 =
      replace_pool 0
        (set_nFreeFrames pool_16 (to_ulong (nFreeFrames pool_16 - 4)))
        (frame_pools world_16).
Proof.
  apply (get_then_release_restores_states pool_16 0 4 world_16 100
           world_16_alloc).
  - unfold pool_wf, FRAME_SIZE, ULONG_BITS. simpl. lia.
  - lia.
  - reflexivity.
  - vm_compute. reflexivity.
  - intros j _ H. cbn [mem world_16] in H.
    rewrite state_at_zero_memory in H. discriminate.
  - vm_compute. reflexivity.
  - discriminate.
Defined.

(** X15: [mark_inaccessible] on a free range inside the pool followed by
    [release_frames] of its first frame gives every frame of the pool the
    state it had before, when the table routes the frame to this pool and
    the range ends at the end of the pool or before a frame that is not
    [Used]; no pool object is written by either call. *)
Theorem mark_then_release_restores_states this k b n w w1 :
  pool_wf this -> 1 <= n ->
  nth_error (frame_pools w) k = Some this ->
  find_pool (frame_pools w) b = Some this ->
  free_run this (mem w) (b - base_frame_no this) n ->
  (b - base_frame_no this + n < nframes this ->
     state_at this (mem w) (b - base_frame_no this + n) <> Used) ->
  call_mark_inaccessible k b n w = Some w1 ->
  exists w2,
    release_frames b w1 = Done w2 /\
    (forall j, 0 <= j < nframes this ->
       state_at this (mem w2) j = state_at this (mem w) j) /\
    frame_pools w2 = frame_pools w.
Proof.
  intros Hwf Hn Hk Hroute (Hc0 & Hcn & Hfree) Hend Hcall.
  pose proof Hwf as [Hb Hnf]. unfold FRAME_SIZE in Hnf.
  destruct (owns_range _ _ Hwf (find_pool_owns _ _ _ Hroute)) as [[Hlo _] Ec].
  unfold call_mark_inaccessible in Hcall. rewrite Hk in Hcall.
  inversion Hcall as [Ew1]. clear Hcall Ew1.
  pose proof (mark_inaccessible_marks_run this (mem w) b n Hwf Hn Hlo
                ltac:(lia)) as (Hhead & Hbody & Hrest).
  set (m1 := mark_inaccessible this (mem w) b n) in *.
  set (c := b - base_frame_no this) in *.
  assert (Rc : frame_range c) by range.
  eexists. unfold release_frames. cbn [frame_pools mem].
  rewrite Hroute. cbv zeta. fold c. rewrite Ec.
  fold (state_at this m1 c). rewrite Hhead. simpl.
  rewrite (to_ulong_small (c + 1)) by range.
  split; [reflexivity |]. cbn [mem frame_pools]. split; [| reflexivity].
  destruct (release_loop_frees_run this c n
              (Z.to_nat (nframes this - (c + 1))) Hwf Hc0 Hcn (c + 1)
              (set_state (bitmap this) m1 c Free)) as [L1 L2]; try lia.
  - intros j Hj. unfold state_at.
    rewrite get_state_set_other by (auto; range). apply Hbody. lia.
  - intros Hlt. unfold state_at.
    rewrite get_state_set_other by (auto; range).
    fold (state_at this m1 (c + n)). rewrite Hrest by lia. auto.
  - intros j Hj.
    destruct (Z.lt_ge_cases j c) as [H1 | H1];
      [| destruct (Z.lt_ge_cases j (c + n)) as [H2 | H2]].
    + rewrite L2 by lia. unfold state_at.
      rewrite get_state_set_other by (auto; range). apply Hrest; lia.
    + rewrite Hfree by lia. destruct (Z.eq_dec j c) as [-> | Hjc].
      * rewrite L2 by lia. apply get_state_set_same.
      * apply L1. lia.
    + rewrite L2 by lia. unfold state_at.
      rewrite get_state_set_other by (auto; range). apply Hrest; lia.
Qed.

Lemma mark_then_release_restores_states_witness :
  exists w2,
    release_frames 110 (do_mark_inaccessible 0 110 3 world_16) = Done w2 /\
    (forall j, 0 <= j < nframes pool_16 ->
       state_at pool_16 (mem w2) j = state_at pool_16 (mem world_16) j) /\
    frame_pools w2 = frame_pools world_16.
Proof.
  apply (mark_then_release_restores_states pool_16 0 110 3 world_16).
  - unfold pool_wf, FRAME_SIZE, ULONG_BITS. simpl. lia.
  - lia.
  - reflexivity.
  - vm_compute. reflexivity.
  - repeat split; simpl; try lia. intros j _. apply state_at_zero_memory.
  - intros _. cbn [mem world_16]. rewrite state_at_zero_memory. discriminate.
  - reflexivity.
Defined.

(** ** What is written in memory *)

Lemma set_state_keeps_outside p m j s x :
  0 <= j < nframes p -> nframes p <= FRAME_SIZE * 4 ->
  ~ in_bitmap p x -> set_state (bitmap p) m j s x = m x.
Proof.
  intros Hj Hnf Hout. unfold FRAME_SIZE in Hnf.
  apply set_state_elsewhere. intro E. apply Hout.
  unfold in_bitmap. rewrite E.
  assert (Hq : 0 <= j / 4 < (nframes p + 3) / 4).
  { split; [apply Z.div_pos; lia |].
    apply Z.div_lt_upper_bound; [lia |].
    pose proof (Z.mul_div_le (nframes p + 3) 4 ltac:(lia)).
    pose proof (Z.mod_pos_bound (nframes p + 3) 4 ltac:(lia)).
    pose proof (Z.div_mod (nframes p + 3) 4 ltac:(lia)). lia. }
  assert (Hs : j / 4 < 2 ^ 32).
  { apply Z.div_lt_upper_bound; lia. }
  rewrite to_uint_small by lia. lia.
Qed.

Lemma set_states_keeps_outside p s x count :
  nframes p <= FRAME_SIZE * 4 -> ~ in_bitmap p x ->
  forall i m,
    0 <= i -> i + Z.of_nat count <= nframes p ->
    set_states (bitmap p) count i s m x = m x.
Proof.
  intros Hnf Hout. induction count as [| k IH]; intros i m Hi Hc.
  - reflexivity.
  - cbn [set_states]. rewrite IH by lia.
    rewrite to_ulong_small by range.
    apply set_state_keeps_outside; auto; lia.
Qed.

Lemma release_loop_keeps_outside p x fuel :
  pool_wf p -> ~ in_bitmap p x ->
  forall i m, 0 <= i -> release_loop fuel p i m x = m x.
Proof.
  intros [_ Hnf] Hout. induction fuel as [| k IH]; intros i m Hi.
  - reflexivity.
  - cbn [release_loop].
    destruct (Z.ltb_spec i (nframes p)); [| reflexivity].
    destruct (FrameState_eqb _ Used); [| reflexivity]. simpl.
    rewrite to_ulong_small by range.
    rewrite IH by lia. apply set_state_keeps_outside; auto; lia.
Qed.

(** X16: [get_frames] writes memory only in the bytes of the pool's
    bitmap: every address outside the [ceil(nframes / 4)] bytes from
    [bitmap] on holds what it held before the call. *)
Theorem get_frames_writes_bitmap_only this m n x :
  pool_wf this -> 1 <= n -> ~ in_bitmap this x ->
  snd (get_frames this m n) x = m x.
Proof.
  intros Hwf Hn Hout. pose proof Hwf as [_ Hnf].
  destruct (get_frames_cases this m n Hwf Hn)
    as [(c & [(Hc0 & Hcn & _) _] & ->) | [_ ->]]; [| reflexivity].
  unfold committed. cbn [snd].
  rewrite set_states_keeps_outside by (auto; lia).
  apply set_state_keeps_outside; auto; lia.
Qed.

Lemma get_frames_writes_bitmap_only_witness :
  snd (get_frames pool_16 boot_memory 4) 405508 = boot_memory 405508.
Proof.
  apply (get_frames_writes_bitmap_only pool_16 boot_memory 4 405508).
  - unfold pool_wf, FRAME_SIZE, ULONG_BITS. simpl. lia.
  - lia.
  - unfold in_bitmap. simpl. lia.
Defined.

(** X17: [release_frames] writes memory only in the bytes of the bitmap
    of the pool the frame is routed to. *)
Theorem release_frames_writes_bitmap_only first w w' p x :
  find_pool (frame_pools w) first = Some p -> pool_wf p ->
  release_frames first w = Done w' -> ~ in_bitmap p x ->
  mem w' x = mem w x.
Proof.
  intros Hf Hwf Hrel Hout. pose proof Hwf as [Hb Hnf].
  destruct (owns_range _ _ Hwf (find_pool_owns _ _ _ Hf)) as [[Hlo Hhi] Ec].
  unfold release_frames in Hrel. rewrite Hf in Hrel. cbv zeta in Hrel.
  rewrite Ec in Hrel.
  destruct (FrameState_eqb _ HoS); [| discriminate].
  inversion Hrel as [Ew]. cbn [mem].
  rewrite release_loop_keeps_outside by (auto; apply Z.mod_pos_bound; reflexivity).
  apply set_state_keeps_outside; auto; lia.
Qed.

Lemma release_frames_writes_bitmap_only_witness :
  mem (world_after (release_frames 100 world_16_alloc) world_16_alloc) 405508 =
  mem world_16_alloc 405508.
Proof.
  apply (release_frames_writes_bitmap_only 100 world_16_alloc _
           (mkPool 100 16 12 99 405504) 405508).
  - vm_compute. reflexivity.
  - unfold pool_wf, FRAME_SIZE, ULONG_BITS. simpl. lia.
  - vm_compute. reflexivity.
  - unfold in_bitmap. simpl. lia.
Defined.

(** X18: a construction that returns writes memory only in the bytes of
    the bitmap of the new pool, for a pool of at least one frame. *)
Theorem construct_writes_bitmap_only b n i w w' :
  1 <= n -> construct b n i w = Done w' ->
  exists this,
    frame_pools w' = frame_pools w ++ [this] /\
    bitmap this =
      to_ulong ((if i =? 0 then b else i) * FRAME_SIZE) /\
    forall x, ~ in_bitmap this x -> mem w' x = mem w x.
Proof.
  intros Hn. unfold construct.
  destruct (Z.leb_spec n (FRAME_SIZE * 4)) as [Hcap | Hcap]; [| discriminate].
  cbn [negb]. cbv zeta.
  destruct (n_frame_pools w <? frame_pools_capacity); [| discriminate].
  intro Hd. inversion Hd as [Hw']. clear Hd Hw'.
  eexists. split; [reflexivity |]. cbn [mem bitmap].
  split; [destruct (i =? 0); reflexivity |].
  intros x Hout.
  set (this := mkPool b n _ i _) in *.
  assert (Hbm : (if i =? 0 then to_ulong (b * FRAME_SIZE)
                 else to_ulong (i * FRAME_SIZE)) = bitmap this) by reflexivity.
  rewrite Hbm.
  assert (Hloop : set_states (bitmap this) (Z.to_nat n) 0 Free (mem w) x
                  = mem w x).
  { apply set_states_keeps_outside; auto; cbn [nframes this]; lia. }
  destruct (i =? 0); [| exact Hloop].
  rewrite <- Hloop. apply set_state_keeps_outside; auto; cbn [nframes this]; lia.
Qed.

Lemma construct_writes_bitmap_only_witness :
  exists this,
    frame_pools (world_after pool_200 boot) = frame_pools boot ++ [this] /\
    bitmap this = to_ulong ((if 0 =? 0 then 200 else 0) * FRAME_SIZE) /\
    forall x, ~ in_bitmap this x ->
      mem (world_after pool_200 boot) x = mem boot x.
Proof.
  apply (construct_writes_bitmap_only 200 8 0 boot).
  - lia.
  - reflexivity.
Defined.

(** X19: the constructor accepts a self-hosted pool of zero frames: it
    returns, the counter of the new pool has wrapped around to
    [2 ^ 64 - 1], and the slot of frame 0 has been written [Used] although
    the pool has no frame. *)
Theorem construct_empty_self_hosted b w :
  n_frame_pools w < frame_pools_capacity ->
  exists m',
    construct b 0 0 w =
      Done (mkWorld m'
              (frame_pools w ++
               [mkPool b 0 (2 ^ ULONG_BITS - 1) 0
                  (to_ulong (b * FRAME_SIZE))])) /\
    get_state (to_ulong (b * FRAME_SIZE)) m' 0 = Used.
Proof.
  intro Hroom. unfold construct.
  destruct (Z.ltb_spec (n_frame_pools w) frame_pools_capacity); [| lia].
  cbn [Z.leb Z.compare negb Z.eqb Z.to_nat set_states]. cbv zeta.
  eexists. split; [reflexivity |]. apply get_state_set_same.
Qed.

Lemma construct_empty_self_hosted_witness :
  exists m',
    construct 200 0 0 boot =
      Done (mkWorld m'
              (frame_pools boot ++
               [mkPool 200 0 (2 ^ ULONG_BITS - 1) 0
                  (to_ulong (200 * FRAME_SIZE))])) /\
    get_state (to_ulong (200 * FRAME_SIZE)) m' 0 = Used.
Proof.
  apply (construct_empty_self_hosted 200 boot). vm_compute. reflexivity.
Defined.
